(** * validate_ifc.py: the IFC validator of the Boscotek configurator

    A shallow embedding of [src/validate_ifc.py].  The script opens an IFC
    file through ifcopenshell, runs seven checks over the parsed model, each
    of which appends text lines to three lists held by the validator object
    ([errors], [warnings], [info]), prints a report and exits with status 0
    or 1.

    The parsed model is the input of the embedding: ifcopenshell itself is
    not part of the script.  What the script reads from the provider is
    represented as follows.
    - [model.by_type(t)] returns the entities whose class is [t] or a
      subtype of [t]; an entity carries its class name ([is_a()]) and the
      names of its supertypes ([is_a(t)]).
    - An attribute that should hold an entity reference is a [handle]:
      [None], a bare number, or an entity.  The script probes such values
      with [not x], [hasattr(x, 'is_a')] and [x.is_a(...)].  An entity
      carries its number of attributes, because [not x] on an entity tests
      [len(x)]: an entity of a class without attributes is falsy.
    - Text attributes ([Name], [ObjectType]) are [option string].
    - [getattr]/[hasattr] on a unit distinguish an attribute that the class
      does not have from one whose value is [None].
    - [ifcopenshell.util.element.get_psets(e)] is a dict; it is the [psets]
      field of the entity.
    Attributes other than the probed reference slots have the type the IFC
    schema gives them; on such a model no check raises, so the only
    exception that reaches [main] is the one of the constructor. *)

From stdpp Require Import base strings list gmap pretty.
From Stdlib Require Import Ascii QArith.

Local Open Scope string_scope.
Local Open Scope Z_scope.

(** ** Provider values *)

Inductive handle : Type :=
| Absent                                           (* None *)
| RawValue (x : Q)                                 (* a bare number, e.g. a float *)
| EntityRef (cls : string) (supers : list string) (attrs : nat).
    (* an entity_instance of class [cls], with [len(x) = attrs] *)

(** [bool(x)]: [None] and a zero number are falsy; the length of an entity
    instance is its number of attributes, so an entity is falsy exactly
    when its class declares no attribute (IfcVertex, IfcLoop). *)
Definition truthy (h : handle) : bool :=
  match h with
  | Absent => false
  | RawValue x => negb (Qeq_bool x 0)
  | EntityRef _ _ attrs => negb (Nat.eqb attrs 0)
  end.

(** [hasattr(x, 'is_a')] *)
Definition has_is_a (h : handle) : bool :=
  match h with
  | EntityRef _ _ _ => true
  | _ => false
  end.

(** [x.is_a(t)] for an entity of class [cls] with supertypes [supers]. *)
Definition class_is_a (cls : string) (supers : list string) (t : string) : bool :=
  bool_decide (t ∈ cls :: supers).

(** An attribute read with [hasattr]/[getattr]. *)
Inductive attribute : Type :=
| Missing            (* the class has no such attribute *)
| Null               (* the attribute is None *)
| Text (s : string).

Definition hasattr (a : attribute) : bool :=
  match a with
  | Missing => false
  | _ => true
  end.

(** [a == s] for a string literal [s] *)
Definition attr_eq (a : attribute) (s : string) : bool :=
  match a with
  | Text t => bool_decide (t = s)
  | _ => false
  end.

(** [f"{getattr(obj, name, default)}"] *)
Definition getattr_str (a : attribute) (default : string) : string :=
  match a with
  | Missing => default
  | Null => "None"
  | Text s => s
  end.

(** [f"{x}"] for an optional text attribute *)
Definition str_opt (o : option string) : string :=
  match o with
  | Some s => s
  | None => "None"
  end.

(** [bool(x)] for an optional text attribute: [None] and [''] are falsy. *)
Definition text_truthy (o : option string) : bool :=
  match o with
  | Some (String _ _) => true
  | _ => false
  end.

(** [bool(x)] for an optional tuple: [None] and [()] are falsy. *)
Definition seq_truthy {A} (o : option (list A)) : bool :=
  match o with
  | Some (_ :: _) => true
  | _ => false
  end.

(** [bool(xs)] for a list *)
Definition nonempty {A} (l : list A) : bool :=
  match l with
  | [] => false
  | _ :: _ => true
  end.

Record ifc_unit : Type := IfcUnit {
  UnitType : attribute;
  Prefix : attribute
}.

Record entity : Type := Entity {
  ifc_class : string;                    (* is_a() *)
  supertypes : list string;
  Name : option string;
  ObjectPlacement : handle;
  Representation : handle;
  ObjectType : option string;
  UnitsInContext : option (list ifc_unit);   (* the unit assignment's Units *)
  RepresentationContexts : option (list handle);
  psets : gmap string (gmap string string);  (* get_psets(entity) *)
  RelatingObject : handle;
  RelatedObjects : option (list handle);
  RelatingStructure : handle
}.

Record model : Type := Model {
  schema : string;            (* model.wrapped_data.schema *)
  entities : list entity      (* in the order by_type lists them *)
}.

Definition is_a (e : entity) (t : string) : bool :=
  class_is_a (ifc_class e) (supertypes e) t.

Definition by_type (m : model) (t : string) : list entity :=
  filter (λ e, is_a e t) (entities m).

(** ** The three finding lists *)

Record findings : Type := Findings {
  errors : list string;
  warnings : list string;
  info : list string
}.

(** [__init__] starts with three empty lists. *)
Definition no_findings : findings := Findings [] [] [].

Definition add_error (msg : string) (f : findings) : findings :=
  Findings (errors f ++ [msg]) (warnings f) (info f).

Definition add_warning (msg : string) (f : findings) : findings :=
  Findings (errors f) (warnings f ++ [msg]) (info f).

Definition add_info (msg : string) (f : findings) : findings :=
  Findings (errors f) (warnings f) (info f ++ [msg]).

(** [f"{len(xs)}"] *)
Definition len_str {A} (l : list A) : string := pretty (length l).

(** [sep.join(xs)] *)
Fixpoint join (sep : string) (l : list string) : string :=
  match l with
  | [] => ""
  | [x] => x
  | x :: rest => x +:+ sep +:+ join sep rest
  end.

(** ** The seven checks *)

Definition validate_schema (m : model) (f : findings) : findings :=
  if bool_decide (schema m ≠ "IFC4")
  then add_error ("Schema must be IFC4, found: " +:+ schema m) f
  else add_info ("✓ Schema: " +:+ schema m) f.

(** The [for unit in units.Units] loop with its [break]. *)
Fixpoint find_length_unit (units : list ifc_unit) : option ifc_unit :=
  match units with
  | [] => None
  | unit :: rest =>
      if hasattr (UnitType unit) && attr_eq (UnitType unit) "LENGTHUNIT"
      then Some unit
      else find_length_unit rest
  end.

Definition validate_units (m : model) (f : findings) : findings :=
  match by_type m "IfcProject" with
  | [] => add_error "No IfcProject found" f
  | project :: _ =>
      match UnitsInContext project with
      | None =>
          add_error "IfcProject.UnitsInContext is null (must be entity reference)" f
      | Some units =>
          match find_length_unit units with
          | None => add_error "No LENGTHUNIT found in UnitsInContext" f
          | Some length_unit =>
              if hasattr (Prefix length_unit) && attr_eq (Prefix length_unit) "MILLI"
              then add_info "✓ Units: MILLIMETRE (correct)" f
              else add_warning
                     ("Units: " +:+ getattr_str (Prefix length_unit) "None"
                      +:+ "METRE (spec requires MILLIMETRE)") f
          end
      end
  end.

Definition validate_spatial_hierarchy (m : model) (f : findings) : findings :=
  match by_type m "IfcProject" with
  | [] => add_error "No IfcProject found" f
  | project :: _ =>
      let f1 :=
        if negb (seq_truthy (RepresentationContexts project))
        then add_error "IfcProject.RepresentationContexts is null (must be entity list)" f
        else add_info ("✓ Project has "
                       +:+ len_str (default [] (RepresentationContexts project))
                       +:+ " representation context(s)") f in
      let sites := by_type m "IfcSite" in
      let buildings := by_type m "IfcBuilding" in
      let storeys := by_type m "IfcBuildingStorey" in
      let f2 :=
        if negb (nonempty sites)
        then add_error "No IfcSite found (required)" f1
        else add_info ("✓ Found " +:+ len_str sites +:+ " IfcSite(s)") f1 in
      let f3 :=
        if negb (nonempty buildings)
        then add_error "No IfcBuilding found (required)" f2
        else add_info ("✓ Found " +:+ len_str buildings +:+ " IfcBuilding(s)") f2 in
      if negb (nonempty storeys)
      then add_error "No IfcBuildingStorey found (CRITICAL - required for valid hierarchy)" f3
      else add_info ("✓ Found " +:+ len_str storeys +:+ " IfcBuildingStorey(s)") f3
  end.

(** One iteration of the loop of [validate_no_float_placements]. *)
Definition check_placement (product : entity) (f : findings) : findings :=
  if negb (truthy (ObjectPlacement product))
  then add_error (str_opt (Name product)
                  +:+ ": ObjectPlacement is null (must be IfcLocalPlacement)") f
  else if negb (has_is_a (ObjectPlacement product))
  then add_error (str_opt (Name product)
                  +:+ ": ObjectPlacement is not an IFC entity (possibly float)") f
  else match ObjectPlacement product with
       | EntityRef cls supers _ =>
           if negb (class_is_a cls supers "IfcLocalPlacement")
           then add_warning (str_opt (Name product) +:+ ": ObjectPlacement is " +:+ cls
                             +:+ " (expected IfcLocalPlacement)") f
           else f
       | _ => f
       end.

(** [for x in xs: body] over the finding lists *)
Definition for_each {A} (body : A → findings → findings) (xs : list A)
    (f : findings) : findings :=
  foldl (λ acc x, body x acc) f xs.

Definition validate_no_float_placements (m : model) (f : findings) : findings :=
  let products := by_type m "IfcProduct" in
  add_info ("✓ Checked " +:+ len_str products +:+ " products for valid placements")
           (for_each check_placement products f).

Definition spatial_classes : list string :=
  ["IfcProject"; "IfcSite"; "IfcBuilding"; "IfcBuildingStorey"].

(** One iteration of the loop of [validate_products]. *)
Definition check_product (product : entity) (f : findings) : findings :=
  if bool_decide (ifc_class product ∈ spatial_classes) then f
  else if negb (truthy (Representation product))
  then add_warning (str_opt (Name product) +:+ ": No Representation (geometry missing)") f
  else if negb (text_truthy (ObjectType product))
  then add_warning (str_opt (Name product)
                    +:+ ": ObjectType not set (should be Boscotek code)") f
  else f.

Definition validate_products (m : model) (f : findings) : findings :=
  let products := by_type m "IfcProduct" in
  let f1 := for_each check_product products f in
  let furnishings := by_type m "IfcFurnishingElement" in
  add_info ("✓ Found " +:+ len_str furnishings +:+ " IfcFurnishingElement(s)") f1.

Definition required_props : list string := ["BoscotekCode"; "Family"; "Manufacturer"].

(** [[prop for prop in required_props if prop not in pset]] *)
Definition missing_props (pset : gmap string string) : list string :=
  filter (λ prop, pset !! prop = None) required_props.

(** One iteration of the loop of [validate_property_sets]. *)
Definition check_property_set (product : entity) (f : findings) : findings :=
  match psets product !! "Pset_BoscotekCabinet" with
  | Some pset =>
      if nonempty (missing_props pset)
      then add_warning (str_opt (Name product) +:+ ": Missing properties: "
                        +:+ join ", " (missing_props pset)) f
      else add_info ("✓ " +:+ str_opt (Name product)
                     +:+ ": Has complete Pset_BoscotekCabinet") f
  | None =>
      add_warning (str_opt (Name product)
                   +:+ ": Missing Pset_BoscotekCabinet property set") f
  end.

Definition validate_property_sets (m : model) (f : findings) : findings :=
  for_each check_property_set (by_type m "IfcFurnishingElement") f.

(** The inner loop over [rel.RelatedObjects]. *)
Definition check_related_object (obj : handle) (f : findings) : findings :=
  if negb (has_is_a obj)
  then add_error "IfcRelAggregates.RelatedObjects contains non-entity (possibly float)" f
  else f.

Definition check_aggregate (rel : entity) (f : findings) : findings :=
  let f1 :=
    if negb (has_is_a (RelatingObject rel))
    then add_error "IfcRelAggregates.RelatingObject is not an entity (possibly float)" f
    else f in
  if negb (seq_truthy (RelatedObjects rel))
  then add_error "IfcRelAggregates.RelatedObjects is empty" f1
  else for_each check_related_object (default [] (RelatedObjects rel)) f1.

Definition check_containment (rel : entity) (f : findings) : findings :=
  let f1 :=
    if negb (has_is_a (RelatingStructure rel))
    then add_error "IfcRelContainedInSpatialStructure.RelatingStructure is not an entity" f
    else f in
  match RelatingStructure rel with
  | EntityRef cls supers _ =>
      if class_is_a cls supers "IfcBuilding"
      then add_warning "Products contained in IfcBuilding (should be IfcBuildingStorey)" f1
      else if class_is_a cls supers "IfcBuildingStorey"
      then add_info "✓ Products correctly contained in IfcBuildingStorey" f1
      else f1
  | _ => f1
  end.

Definition validate_relationships (m : model) (f : findings) : findings :=
  let aggregates := by_type m "IfcRelAggregates" in
  let f1 := for_each check_aggregate aggregates f in
  let containments := by_type m "IfcRelContainedInSpatialStructure" in
  let f2 := for_each check_containment containments f1 in
  add_info ("✓ Validated " +:+ len_str aggregates +:+ " aggregation and "
            +:+ len_str containments +:+ " containment relationships") f2.

(** ** The report *)

Definition nl : string := String (Ascii.ascii_of_nat 10) "".

(** [s * n] *)
Fixpoint str_times (s : string) (n : nat) : string :=
  match n with
  | O => ""
  | S k => s +:+ str_times s k
  end.

Definition rule : string := str_times "=" 70.

(** Standard output is the list of the texts given to [print], in order. *)
Definition print_block (title bullet : string) (items : list string) : list string :=
  if nonempty items
  then [title +:+ " (" +:+ len_str items +:+ "):"]
       ++ map (λ item, bullet +:+ item) items ++ [""]
  else [].

Definition print_results (f : findings) : list string :=
  [nl +:+ rule; "VALIDATION RESULTS"; rule +:+ nl]
  ++ print_block "❌ ERRORS" "   • " (errors f)
  ++ print_block "⚠️  WARNINGS" "   • " (warnings f)
  ++ print_block "✓ PASSED CHECKS" "   " (info f)
  ++ [rule]
  ++ (if nonempty (errors f)
      then ["❌ VALIDATION FAILED";
            "   " +:+ len_str (errors f) +:+ " error(s), "
            +:+ len_str (warnings f) +:+ " warning(s)"]
      else if nonempty (warnings f)
      then ["⚠️  VALIDATION PASSED WITH WARNINGS";
            "   " +:+ len_str (warnings f) +:+ " warning(s)"]
      else ["✅ VALIDATION PASSED"; "   All checks successful!"])
  ++ [rule +:+ nl].

(** ** The validator object and the entry point *)

Record validator : Type := Validator {
  file_path : string;
  found : findings;         (* self.errors, self.warnings, self.info *)
  opened : model            (* self.model *)
}.

(** The file system and [ifcopenshell.open]: opening a path gives a model
    or raises an exception, kept as its text. *)
Record provider : Type := Provider {
  path_exists : string → bool;
  ifc_open : string → string + model
}.

(** [IFCValidator.__init__]: [inl] is the exception it raises. *)
Definition IFCValidator (io : provider) (ifc_file_path : string) : string + validator :=
  match ifc_open io ifc_file_path with
  | inl e => inl ("Failed to open IFC file: " +:+ e)
  | inr m => inr (Validator ifc_file_path no_findings m)
  end.

Fixpoint has_slash (s : string) : bool :=
  match s with
  | EmptyString => false
  | String c rest => if Ascii.eqb c "/"%char then true else has_slash rest
  end.

(** [os.path.basename]: what follows the last slash. *)
Fixpoint basename (s : string) : string :=
  match s with
  | EmptyString => ""
  | String c rest =>
      if has_slash rest then basename rest
      else if Ascii.eqb c "/"%char then rest else s
  end.

(** The seven calls of [validate_all], in its order. *)
Definition run_checks (m : model) (f : findings) : findings :=
  let f := validate_schema m f in
  let f := validate_units m f in
  let f := validate_spatial_hierarchy m f in
  let f := validate_no_float_placements m f in
  let f := validate_products m f in
  let f := validate_property_sets m f in
  validate_relationships m f.

(** The seven check routines, as [validate_all] orders them. *)
Definition check_routines : list (model → findings → findings) :=
  [validate_schema; validate_units; validate_spatial_hierarchy;
   validate_no_float_placements; validate_products; validate_property_sets;
   validate_relationships].

(** [l.count(msg)] *)
Definition occurrences (msg : string) (l : list string) : nat :=
  length (filter (λ e, e = msg) l).

(** [validate_all]: what it prints, the validator afterwards, and the
    boolean it returns. *)
Definition validate_all (v : validator) : list string * validator * bool :=
  let header := [nl +:+ rule;
                 "IFC VALIDATION: " +:+ basename (file_path v);
                 rule +:+ nl] in
  let f := run_checks (opened v) (found v) in
  ((header ++ print_results f)%list,
   Validator (file_path v) f (opened v),
   bool_decide (length (errors f) = 0%nat)).

Definition usage : list string :=
  ["Usage: python validate_ifc.py <path_to_ifc_file>";
   nl +:+ "Example:";
   "  python validate_ifc.py Boscotek_prod-hd-cabinet_BTCS.700.560_CFG123_LEAD456.ifc"].

(** [main]: standard output and the exit status. *)
Definition main (io : provider) (argv : list string) : list string * Z :=
  match argv with
  | _ :: ifc_file :: _ =>
      if negb (path_exists io ifc_file)
      then (["ERROR: File not found: " +:+ ifc_file], 1)
      else match IFCValidator io ifc_file with
           | inl e => ([nl +:+ "ERROR: " +:+ e], 1)
           | inr v =>
               let '(out, _, success) := validate_all v in
               (out, if success then 0 else 1)
           end
  | _ => (usage, 1)
  end.

(** The finding lists of the run that [main] starts on [ifc_file], when the
    file opens. *)
Definition run_findings (io : provider) (ifc_file : string) : option findings :=
  match IFCValidator io ifc_file with
  | inl _ => None
  | inr v => Some (found (validate_all v).1.2)
  end.

(** ** Findings as a monoid under list append *)

Definition fapp (f g : findings) : findings :=
  Findings (errors f ++ errors g) (warnings f ++ warnings g) (info f ++ info g).

Definition fconcat (l : list findings) : findings :=
  foldr fapp no_findings l.

(** A step [c] only appends: what it adds does not depend on what the
    lists already hold. *)
Definition appender (c : findings → findings) : Prop :=
  ∀ f, c f = fapp f (c no_findings).

(** [g] holds all of [f], in the same order and from the start. *)
Definition extends (f g : findings) : Prop :=
  errors f `prefix_of` errors g
  ∧ warnings f `prefix_of` warnings g
  ∧ info f `prefix_of` info g.

(** Substring test: [needle in hay]. *)
Fixpoint mentions (needle hay : string) : bool :=
  String.prefix needle hay
  || match hay with
     | EmptyString => false
     | String _ rest => mentions needle rest
     end.

(** ** Sample models *)

Module Sample.

Definition local_placement : handle :=
  EntityRef "IfcLocalPlacement" ["IfcObjectPlacement"] 2.

Definition shape : handle :=
  EntityRef "IfcProductDefinitionShape" ["IfcProductRepresentation"] 3.

Definition millimetre : ifc_unit := IfcUnit (Text "LENGTHUNIT") (Text "MILLI").
Definition metre : ifc_unit := IfcUnit (Text "LENGTHUNIT") Null.
Definition centimetre : ifc_unit := IfcUnit (Text "LENGTHUNIT") (Text "CENTI").
Definition inch : ifc_unit := IfcUnit (Text "LENGTHUNIT") Missing.
Definition square_metre : ifc_unit := IfcUnit (Text "AREAUNIT") Null.
Definition euro : ifc_unit := IfcUnit Missing Missing.

Definition project (units : option (list ifc_unit)) : entity :=
  Entity "IfcProject" ["IfcContext"; "IfcObjectDefinition"; "IfcRoot"]
    (Some "Boscotek") Absent Absent None units
    (Some [EntityRef "IfcGeometricRepresentationContext"
               ["IfcRepresentationContext"] 6])
    ∅ Absent None Absent.

Definition spatial (cls name : string) : entity :=
  Entity cls ["IfcSpatialStructureElement"; "IfcSpatialElement"; "IfcProduct";
              "IfcObject"; "IfcObjectDefinition"; "IfcRoot"]
    (Some name) local_placement Absent None None None ∅ Absent None Absent.

Definition cabinet_pset : gmap string string :=
  {[ "BoscotekCode" := "BTCS.700.560"; "Family" := "HD Cabinet";
     "Manufacturer" := "Boscotek" ]}.

Definition furnishing (name : option string) (placement : handle)
    (sets : gmap string (gmap string string)) : entity :=
  Entity "IfcFurnishingElement"
    ["IfcElement"; "IfcProduct"; "IfcObject"; "IfcObjectDefinition"; "IfcRoot"]
    name placement shape (Some "BTCS.700.560") None None sets Absent None Absent.

Definition cabinet : entity :=
  furnishing (Some "Cabinet") local_placement
    {[ "Pset_BoscotekCabinet" := cabinet_pset ]}.

Definition aggregates (whole : handle) (parts : option (list handle)) : entity :=
  Entity "IfcRelAggregates" ["IfcRelDecomposes"; "IfcRelationship"; "IfcRoot"]
    None Absent Absent None None None ∅ whole parts Absent.

Definition contained_in (structure : handle) : entity :=
  Entity "IfcRelContainedInSpatialStructure"
    ["IfcRelConnects"; "IfcRelationship"; "IfcRoot"]
    None Absent Absent None None None ∅ Absent None structure.

Definition storey_ref : handle :=
  EntityRef "IfcBuildingStorey" ["IfcSpatialStructureElement"; "IfcProduct"] 10.

(** A file that meets every rule. *)
Definition conformant : model :=
  Model "IFC4"
    [project (Some [square_metre; millimetre]);
     spatial "IfcSite" "Site";
     spatial "IfcBuilding" "Building";
     spatial "IfcBuildingStorey" "Level 1";
     cabinet;
     aggregates (EntityRef "IfcProject" ["IfcContext"] 9)
                (Some [EntityRef "IfcSite" ["IfcProduct"] 14]);
     contained_in storey_ref].

(** A file with nothing in it. *)
Definition hollow : model := Model "IFC4" [].

(** A project and a cabinet, but no site, building or storey. *)
Definition unhoused : model :=
  Model "IFC2X3" [project (Some [metre]); cabinet].

(** Placements that are not local placements. *)
Definition misplaced : model :=
  Model "IFC4"
    [furnishing (Some "a") Absent ∅;
     furnishing (Some "b") (RawValue (3 # 2)) ∅;
     furnishing (Some "c") (RawValue 0) ∅;
     furnishing None (EntityRef "IfcGridPlacement" ["IfcObjectPlacement"] 2) ∅].

(** An entity of a class without attributes, where a placement belongs. *)
Definition vertex : handle :=
  EntityRef "IfcVertex"
    ["IfcTopologicalRepresentationItem"; "IfcRepresentationItem"] 0.

(** Furnishing elements with a complete, an incomplete and no vendor set. *)
Definition showroom : model :=
  Model "IFC4"
    [cabinet;
     furnishing (Some "Drawer unit") local_placement
       {[ "Pset_BoscotekCabinet" := {[ "Family" := "HD Cabinet" ]} ]};
     spatial "IfcSite" "Site";
     furnishing None local_placement
       {[ "Pset_Warranty" := {[ "Manufacturer" := "Boscotek" ]} ]}].

(** Every path exists and opens as [m]. *)
Definition serving (m : model) : provider :=
  Provider (λ _, true) (λ _, inr m).

(** Every path exists and none can be parsed. *)
Definition unparseable : provider :=
  Provider (λ _, true) (λ _, inl "Unable to parse IFC SPF header").

(** No path exists. *)
Definition nowhere : provider :=
  Provider (λ _, false) (λ _, inl "No such file").

End Sample.

(** * Properties *)

(** ** The script on the sample models *)

Example conformant_run :
  run_checks Sample.conformant no_findings
  = Findings [] []
      ["✓ Schema: IFC4"; "✓ Units: MILLIMETRE (correct)";
       "✓ Project has 1 representation context(s)";
       "✓ Found 1 IfcSite(s)"; "✓ Found 1 IfcBuilding(s)";
       "✓ Found 1 IfcBuildingStorey(s)";
       "✓ Checked 4 products for valid placements";
       "✓ Found 1 IfcFurnishingElement(s)";
       "✓ Cabinet: Has complete Pset_BoscotekCabinet";
       "✓ Products correctly contained in IfcBuildingStorey";
       "✓ Validated 1 aggregation and 1 containment relationships"].
Proof. by vm_compute. Qed.

Example unhoused_run :
  run_checks Sample.unhoused no_findings
  = Findings
      ["Schema must be IFC4, found: IFC2X3";
       "No IfcSite found (required)"; "No IfcBuilding found (required)";
       "No IfcBuildingStorey found (CRITICAL - required for valid hierarchy)"]
      ["Units: NoneMETRE (spec requires MILLIMETRE)"]
      ["✓ Project has 1 representation context(s)";
       "✓ Checked 1 products for valid placements";
       "✓ Found 1 IfcFurnishingElement(s)";
       "✓ Cabinet: Has complete Pset_BoscotekCabinet";
       "✓ Validated 0 aggregation and 0 containment relationships"].
Proof. by vm_compute. Qed.

Example inch_has_no_prefix :
  validate_units (Model "IFC4" [Sample.project (Some [Sample.inch])]) no_findings
  = Findings [] ["Units: NoneMETRE (spec requires MILLIMETRE)"] [].
Proof. reflexivity. Qed.

Example relationships_with_numbers :
  errors (validate_relationships
            (Model "IFC4"
               [Sample.aggregates (RawValue (1 # 2))
                  (Some [RawValue 0; Sample.storey_ref]);
                Sample.aggregates Sample.storey_ref None;
                Sample.contained_in Absent])
            no_findings)
  = ["IfcRelAggregates.RelatingObject is not an entity (possibly float)";
     "IfcRelAggregates.RelatedObjects contains non-entity (possibly float)";
     "IfcRelAggregates.RelatedObjects is empty";
     "IfcRelContainedInSpatialStructure.RelatingStructure is not an entity"].
Proof. by vm_compute. Qed.

Example attribute_less_entity_is_falsy :
  check_placement (Sample.furnishing (Some "v") Sample.vertex ∅) no_findings
  = Findings ["v: ObjectPlacement is null (must be IfcLocalPlacement)"] [] []
  ∧ check_product
      (Entity "IfcFurnishingElement" ["IfcElement"; "IfcProduct"] (Some "v")
         Sample.local_placement Sample.vertex (Some "BTCS.700.560") None None ∅
         Absent None Absent)
      no_findings
    = Findings [] ["v: No Representation (geometry missing)"] [].
Proof. split; reflexivity. Qed.

Example missing_argument :
  main Sample.nowhere ["validate_ifc.py"] = (usage, 1).
Proof. reflexivity. Qed.

Example missing_file :
  main Sample.nowhere ["validate_ifc.py"; "gone.ifc"]
  = (["ERROR: File not found: gone.ifc"], 1).
Proof. reflexivity. Qed.

Example conformant_exit :
  (main (Sample.serving Sample.conformant) ["validate_ifc.py"; "out/c.ifc"]).2 = 0
  ∧ last (main (Sample.serving Sample.conformant)
               ["validate_ifc.py"; "out/c.ifc"]).1
    = Some (rule +:+ nl)
  ∧ "✅ VALIDATION PASSED"
    ∈ (main (Sample.serving Sample.conformant) ["validate_ifc.py"; "out/c.ifc"]).1
  ∧ "IFC VALIDATION: c.ifc"
    ∈ (main (Sample.serving Sample.conformant) ["validate_ifc.py"; "out/c.ifc"]).1.
Proof.
  split; [by vm_compute|]. split; [by vm_compute|].
  split; refine (bool_decide_unpack _ _); by vm_compute.
Qed.

Section Monoid.

Lemma findings_eq f g :
  errors f = errors g → warnings f = warnings g → info f = info g → f = g.
Proof. destruct f, g; simpl; congruence. Qed.

Lemma fapp_empty_l f : fapp no_findings f = f.
Proof. by destruct f. Qed.

Lemma fapp_empty_r f : fapp f no_findings = f.
Proof. apply findings_eq; simpl; apply app_nil_r. Qed.

Lemma fapp_assoc f g h : fapp f (fapp g h) = fapp (fapp f g) h.
Proof. apply findings_eq; simpl; apply app_assoc. Qed.

Lemma extends_fapp f g : extends f (fapp f g).
Proof. repeat split; simpl; apply prefix_app_r; done. Qed.

Lemma extends_refl f : extends f f.
Proof. repeat split; done. Qed.

Lemma extends_trans f g h : extends f g → extends g h → extends f h.
Proof.
  intros (He & Hw & Hi) (He' & Hw' & Hi').
  repeat split; etrans; eauto.
Qed.

End Monoid.

Section Appenders.

Lemma appender_id : appender (λ f, f).
Proof. intros f. by rewrite fapp_empty_r. Qed.

Lemma appender_add_error msg : appender (add_error msg).
Proof. intros f. apply findings_eq; simpl; by rewrite ?app_nil_r. Qed.

Lemma appender_add_warning msg : appender (add_warning msg).
Proof. intros f. apply findings_eq; simpl; by rewrite ?app_nil_r. Qed.

Lemma appender_add_info msg : appender (add_info msg).
Proof. intros f. apply findings_eq; simpl; by rewrite ?app_nil_r. Qed.

Lemma appender_compose c1 c2 :
  appender c1 → appender c2 → appender (λ f, c2 (c1 f)).
Proof.
  intros H1 H2 f.
  rewrite (H2 (c1 f)), (H1 f), (H2 (c1 no_findings)).
  by rewrite fapp_assoc.
Qed.

Lemma appender_if (b : bool) c1 c2 :
  appender c1 → appender c2 → appender (λ f, if b then c1 f else c2 f).
Proof. by destruct b. Qed.

Lemma for_each_cons {A} (body : A → findings → findings) x xs f :
  for_each body (x :: xs) f = for_each body xs (body x f).
Proof. done. Qed.

Lemma appender_for_each {A} (body : A → findings → findings) xs :
  (∀ x, appender (body x)) → appender (for_each body xs).
Proof.
  intros Hbody. induction xs as [|x xs IH].
  - apply appender_id.
  - apply (appender_compose (body x) (for_each body xs)); auto.
Qed.

(** A loop of appending steps adds the steps' additions one after the
    other, one per element. *)
Lemma for_each_fconcat {A} (body : A → findings → findings) xs f :
  (∀ x, appender (body x)) →
  for_each body xs f = fapp f (fconcat (map (λ x, body x no_findings) xs)).
Proof.
  intros Hbody. revert f. induction xs as [|x xs IH]; intros f.
  - by rewrite fapp_empty_r.
  - rewrite for_each_cons, IH, (Hbody x f). simpl.
    by rewrite fapp_assoc.
Qed.

Lemma appender_extends c f : appender c → extends f (c f).
Proof. intros Hc. rewrite (Hc f). apply extends_fapp. Qed.

End Appenders.

(** ** Every check only appends *)

Section ChecksAppend.

Ltac leaf :=
  apply findings_eq; simpl; rewrite ?app_nil_r, <- ?app_assoc; reflexivity.

Ltac by_cases def :=
  intros f; unfold def; repeat case_match; leaf.

Lemma validate_schema_appender m : appender (validate_schema m).
Proof. by_cases validate_schema. Qed.

Lemma validate_units_appender m : appender (validate_units m).
Proof. by_cases validate_units. Qed.

Lemma validate_spatial_hierarchy_appender m :
  appender (validate_spatial_hierarchy m).
Proof. by_cases validate_spatial_hierarchy. Qed.

Lemma check_placement_appender p : appender (check_placement p).
Proof. by_cases check_placement. Qed.

Lemma check_product_appender p : appender (check_product p).
Proof. by_cases check_product. Qed.

Lemma check_property_set_appender p : appender (check_property_set p).
Proof. by_cases check_property_set. Qed.

Lemma check_related_object_appender obj : appender (check_related_object obj).
Proof. by_cases check_related_object. Qed.

Lemma check_aggregate_appender rel : appender (check_aggregate rel).
Proof.
  unfold check_aggregate.
  apply (appender_compose
           (λ f, if negb (has_is_a (RelatingObject rel))
                 then add_error _ f else f)
           (λ f1, if negb (seq_truthy (RelatedObjects rel))
                  then add_error _ f1 else for_each _ _ f1)).
  - apply appender_if; [apply appender_add_error | apply appender_id].
  - apply appender_if; [apply appender_add_error |].
    apply appender_for_each, check_related_object_appender.
Qed.

Lemma check_containment_appender rel : appender (check_containment rel).
Proof. by_cases check_containment. Qed.

Lemma validate_no_float_placements_appender m :
  appender (validate_no_float_placements m).
Proof.
  unfold validate_no_float_placements.
  apply (appender_compose (for_each check_placement _) (add_info _)).
  - apply appender_for_each, check_placement_appender.
  - apply appender_add_info.
Qed.

Lemma validate_products_appender m : appender (validate_products m).
Proof.
  unfold validate_products.
  apply (appender_compose (for_each check_product _) (add_info _)).
  - apply appender_for_each, check_product_appender.
  - apply appender_add_info.
Qed.

Lemma validate_property_sets_appender m : appender (validate_property_sets m).
Proof. apply appender_for_each, check_property_set_appender. Qed.

Lemma validate_relationships_appender m : appender (validate_relationships m).
Proof.
  unfold validate_relationships.
  apply (appender_compose
           (λ f, for_each check_containment _ (for_each check_aggregate _ f))
           (add_info _)).
  - apply (appender_compose (for_each check_aggregate _)
                            (for_each check_containment _)).
    + apply appender_for_each, check_aggregate_appender.
    + apply appender_for_each, check_containment_appender.
  - apply appender_add_info.
Qed.

Lemma run_checks_appender m : appender (run_checks m).
Proof.
  unfold run_checks. cbv zeta.
  repeat
    (match goal with
     | |- appender (λ f, ?c m (@?rest f)) => apply (appender_compose rest (c m))
     end).
  all: auto using appender_id, validate_schema_appender, validate_units_appender,
    validate_spatial_hierarchy_appender, validate_no_float_placements_appender,
    validate_products_appender, validate_property_sets_appender,
    validate_relationships_appender.
Qed.

End ChecksAppend.

(** ** The verdict and the exit status *)

Section Verdict.

Lemma validate_all_found v :
  found (validate_all v).1.2 = run_checks (opened v) (found v).
Proof. done. Qed.

Lemma validate_all_true_iff v :
  (validate_all v).2 = true ↔ errors (run_checks (opened v) (found v)) = [].
Proof.
  unfold validate_all. simpl.
  rewrite bool_decide_eq_true. apply length_zero_iff_nil.
Qed.

Lemma main_runs io prog ifc_file rest m :
  path_exists io ifc_file = true →
  ifc_open io ifc_file = inr m →
  main io (prog :: ifc_file :: rest)
  = ((validate_all (Validator ifc_file no_findings m)).1.1,
     if (validate_all (Validator ifc_file no_findings m)).2 then 0 else 1).
Proof.
  intros Hex Hopen. unfold main, IFCValidator. by rewrite Hex, Hopen.
Qed.

Lemma run_findings_opened io ifc_file m :
  ifc_open io ifc_file = inr m →
  run_findings io ifc_file = Some (run_checks m no_findings).
Proof. intros Hopen. unfold run_findings, IFCValidator. by rewrite Hopen. Qed.

End Verdict.

(** C1.  For a run that completes (the path exists and the file opens as
    [m]), the boolean that [validate_all] returns is true exactly when the
    error list is empty, whatever the warning list holds, and [main] exits
    with status 0 when the error list is empty and with status 1 when it
    holds one or more errors.  The first part holds for a validator in any
    state. *)
Theorem validate_all_verdict_and_exit_status
    (io : provider) (prog ifc_file : string) (rest : list string) (m : model) :
  path_exists io ifc_file = true →
  ifc_open io ifc_file = inr m →
  let fs := run_checks m no_findings in
  (∀ v, (validate_all v).2 = true ↔ errors (found (validate_all v).1.2) = [])
  ∧ run_findings io ifc_file = Some fs
  ∧ ((validate_all (Validator ifc_file no_findings m)).2 = true ↔ errors fs = [])
  ∧ (errors fs = [] → (main io (prog :: ifc_file :: rest)).2 = 0)
  ∧ (errors fs ≠ [] → (main io (prog :: ifc_file :: rest)).2 = 1).
Proof.
  intros Hex Hopen fs.
  pose proof (validate_all_true_iff (Validator ifc_file no_findings m)) as Hv.
  change (errors (run_checks _ _)) with (errors fs) in Hv.
  split; [intros v; rewrite validate_all_found; apply validate_all_true_iff|].
  split; [by apply run_findings_opened|].
  split; [done|].
  rewrite (main_runs io prog ifc_file rest m Hex Hopen).
  cbn [snd].
  destruct ((validate_all (Validator ifc_file no_findings m)).2).
  - split; [done|]. intros Hcons. destruct Hcons. by apply Hv.
  - split; [|done]. intros Hnil. apply Hv in Hnil. discriminate.
Qed.

Lemma validate_all_verdict_and_exit_status_witness :
  path_exists (Sample.serving Sample.conformant) "out/cabinet.ifc" = true
  ∧ ifc_open (Sample.serving Sample.conformant) "out/cabinet.ifc"
    = inr Sample.conformant
  ∧ (main (Sample.serving Sample.conformant)
          ["validate_ifc.py"; "out/cabinet.ifc"]).2 = 0.
Proof.
  split; [reflexivity|]. split; [reflexivity|].
  apply (validate_all_verdict_and_exit_status
           (Sample.serving Sample.conformant) "validate_ifc.py" "out/cabinet.ifc"
           [] Sample.conformant eq_refl eq_refl).
  vm_compute. reflexivity.
Defined.

(** ** The schema check *)

(** C2.  The schema check appends exactly one finding: the Info
    [✓ Schema: IFC4] when the declared schema is the string [IFC4], and
    otherwise the Error that names [IFC4] and the schema found.  The warning
    list is never touched. *)
Theorem validate_schema_one_finding (m : model) (f : findings) :
  (schema m = "IFC4" →
   validate_schema m f
   = Findings (errors f) (warnings f) (info f ++ ["✓ Schema: IFC4"]))
  ∧ (schema m ≠ "IFC4" →
     validate_schema m f
     = Findings (errors f ++ ["Schema must be IFC4, found: " +:+ schema m])
                (warnings f) (info f))
  ∧ warnings (validate_schema m f) = warnings f.
Proof.
  unfold validate_schema. repeat split.
  - intros Heq. rewrite bool_decide_eq_false_2 by (intros Hne; by apply Hne).
    by rewrite Heq.
  - intros Hne. by rewrite bool_decide_eq_true_2.
  - by case_bool_decide.
Qed.

Lemma validate_schema_one_finding_witness :
  schema Sample.unhoused ≠ "IFC4"
  ∧ validate_schema Sample.unhoused no_findings
    = Findings ["Schema must be IFC4, found: IFC2X3"] [] [].
Proof.
  split; [by vm_compute|].
  destruct (validate_schema_one_finding Sample.unhoused no_findings)
    as (_ & Hne & _).
  apply Hne. by vm_compute.
Defined.

(** ** The units check *)

Section Units.

Lemma length_unit_test u :
  hasattr (UnitType u) && attr_eq (UnitType u) "LENGTHUNIT" = true
  ↔ UnitType u = Text "LENGTHUNIT".
Proof.
  destruct (UnitType u) as [| |s]; simpl; try (split; discriminate).
  rewrite bool_decide_eq_true. split; congruence.
Qed.

Lemma find_length_unit_none units :
  Forall (λ u, UnitType u ≠ Text "LENGTHUNIT") units →
  find_length_unit units = None.
Proof.
  induction 1 as [|u rest Hu _ IH]; [done|]. simpl.
  destruct (hasattr (UnitType u) && attr_eq (UnitType u) "LENGTHUNIT") eqn:Ht;
    [|exact IH].
  by apply length_unit_test in Ht.
Qed.

(** The scan stops at the first length unit: what follows it is not read. *)
Lemma find_length_unit_first before u after :
  Forall (λ u', UnitType u' ≠ Text "LENGTHUNIT") before →
  UnitType u = Text "LENGTHUNIT" →
  find_length_unit (before ++ u :: after) = Some u.
Proof.
  intros Hbefore Hu. induction Hbefore as [|x rest Hx _ IH]; simpl.
  - by rewrite (proj2 (length_unit_test u) Hu).
  - destruct (hasattr (UnitType x) && attr_eq (UnitType x) "LENGTHUNIT") eqn:Ht;
      [|exact IH].
    by apply length_unit_test in Ht.
Qed.

Lemma milli_test u :
  hasattr (Prefix u) && attr_eq (Prefix u) "MILLI" = true
  ↔ Prefix u = Text "MILLI".
Proof.
  destruct (Prefix u) as [| |s]; simpl; try (split; discriminate).
  rewrite bool_decide_eq_true. split; congruence.
Qed.

End Units.

(** C3.  When the first Project of the model has a unit context, the units
    check reads only the first unit of its list whose unit type is
    [LENGTHUNIT].  With no such unit it appends one Error.  With prefix
    [MILLI] it appends one Info and neither a warning nor an error.  With
    any other prefix [p] it appends one Warning that holds [p] followed by
    [METRE], and a prefix that is absent (a [None] value, or a unit class
    without the attribute) is written [NoneMETRE]. *)
Theorem validate_units_first_length_unit
    (m : model) (f : findings) (project : entity) (others : list entity)
    (units : list ifc_unit) :
  by_type m "IfcProject" = project :: others →
  UnitsInContext project = Some units →
  (Forall (λ u, UnitType u ≠ Text "LENGTHUNIT") units →
   validate_units m f
   = Findings (errors f ++ ["No LENGTHUNIT found in UnitsInContext"])
              (warnings f) (info f))
  ∧ (∀ before u after,
       units = (before ++ u :: after)%list →
       Forall (λ u', UnitType u' ≠ Text "LENGTHUNIT") before →
       UnitType u = Text "LENGTHUNIT" →
       (Prefix u = Text "MILLI" →
        validate_units m f
        = Findings (errors f) (warnings f)
                   (info f ++ ["✓ Units: MILLIMETRE (correct)"]))
       ∧ (∀ p, Prefix u = Text p → p ≠ "MILLI" →
          validate_units m f
          = Findings (errors f)
                     (warnings f
                      ++ ["Units: " +:+ p +:+ "METRE (spec requires MILLIMETRE)"])
                     (info f))
       ∧ (Prefix u = Null ∨ Prefix u = Missing →
          validate_units m f
          = Findings (errors f)
                     (warnings f
                      ++ ["Units: NoneMETRE (spec requires MILLIMETRE)"])
                     (info f))).
Proof.
  intros Hproject Hunits. unfold validate_units. rewrite Hproject, Hunits.
  split.
  - intros Hnone. by rewrite (find_length_unit_none units Hnone).
  - intros before u after -> Hbefore Hu.
    rewrite (find_length_unit_first before u after Hbefore Hu).
    repeat split.
    + intros Hmilli. by rewrite (proj2 (milli_test u) Hmilli).
    + intros p Hp Hne.
      destruct (hasattr (Prefix u) && attr_eq (Prefix u) "MILLI") eqn:Ht.
      * apply milli_test in Ht. congruence.
      * by rewrite Hp.
    + intros Habsent.
      destruct (hasattr (Prefix u) && attr_eq (Prefix u) "MILLI") eqn:Ht.
      * apply milli_test in Ht. destruct Habsent; congruence.
      * by destruct Habsent as [-> | ->].
Qed.

Lemma validate_units_first_length_unit_witness :
  let m := Model "IFC4"
             [Sample.project
                (Some [Sample.square_metre; Sample.euro; Sample.centimetre;
                       Sample.millimetre])] in
  validate_units m no_findings
  = Findings [] ["Units: CENTIMETRE (spec requires MILLIMETRE)"] [].
Proof.
  intros m.
  destruct (validate_units_first_length_unit m no_findings
              (Sample.project
                 (Some [Sample.square_metre; Sample.euro; Sample.centimetre;
                        Sample.millimetre])) []
              [Sample.square_metre; Sample.euro; Sample.centimetre;
               Sample.millimetre] eq_refl eq_refl) as [_ Hfirst].
  destruct (Hfirst [Sample.square_metre; Sample.euro] Sample.centimetre
              [Sample.millimetre] eq_refl) as (_ & Hother & _).
  - repeat constructor; discriminate.
  - reflexivity.
  - apply (Hother "CENTI" eq_refl). discriminate.
Defined.

(** ** The placement check *)

Section Placement.

Lemma errors_fconcat l : errors (fconcat l) = concat (map errors l).
Proof. induction l as [|f l IH]; simpl; [done | by rewrite IH]. Qed.

Lemma warnings_fconcat l : warnings (fconcat l) = concat (map warnings l).
Proof. induction l as [|f l IH]; simpl; [done | by rewrite IH]. Qed.

Lemma info_fconcat l : info (fconcat l) = concat (map info l).
Proof. induction l as [|f l IH]; simpl; [done | by rewrite IH]. Qed.

Lemma mentions_prefix needle rest : mentions needle (needle +:+ rest) = true.
Proof.
  assert (String.prefix needle (needle +:+ rest) = true) as Hp.
  { induction needle as [|c needle IH]; simpl.
    - by destruct rest.
    - destruct (Ascii.ascii_dec c c); [exact IH | done]. }
  destruct (needle +:+ rest); simpl in *; by rewrite Hp.
Qed.

Lemma mentions_app_r needle s t :
  mentions needle t = true → mentions needle (s +:+ t) = true.
Proof.
  intros Ht. induction s as [|c s IH]; simpl; [done|].
  rewrite IH. apply orb_true_r.
Qed.

Lemma raw_number_truthy x : ¬ (x == 0)%Q → truthy (RawValue x) = true.
Proof.
  intros Hx. simpl. apply negb_true_iff.
  destruct (Qeq_bool x 0) eqn:Hq; [|done].
  by apply Qeq_bool_iff in Hq.
Qed.

Lemma check_placement_info p f : info (check_placement p f) = info f.
Proof. unfold check_placement. by repeat case_match. Qed.

Lemma for_each_check_placement_info ps f :
  info (for_each check_placement ps f) = info f.
Proof.
  revert f. induction ps as [|p ps IH]; intros f; [done|].
  by rewrite for_each_cons, IH, check_placement_info.
Qed.

End Placement.

(** C4 as the code has it.  The placement check visits every entity that
    [by_type("IfcProduct")] lists, spatial-structure entities included, and
    for each product appends: one Error that starts with the product's name
    when the placement is [None]; one Error that mentions [possibly float]
    when the placement is a bare number other than zero; one Warning that
    names the placement's class when the placement is an entity with at
    least one attribute that is not an IfcLocalPlacement.  The loop does not
    stop early: the errors and the warnings of the check are those of all
    products, in order, and they are followed by one Info with the number
    of products. *)
Theorem placement_check_per_product (m : model) (f : findings) :
  let products := by_type m "IfcProduct" in
  (∀ p g,
     (ObjectPlacement p = Absent →
      check_placement p g
      = Findings
          (errors g ++ [str_opt (Name p)
                        +:+ ": ObjectPlacement is null (must be IfcLocalPlacement)"])
          (warnings g) (info g))
     ∧ (∀ x, ObjectPlacement p = RawValue x → ¬ (x == 0)%Q →
        let msg := str_opt (Name p)
                   +:+ ": ObjectPlacement is not an IFC entity (possibly float)" in
        check_placement p g = Findings (errors g ++ [msg]) (warnings g) (info g)
        ∧ mentions "possibly float" msg = true)
     ∧ (∀ cls supers attrs,
          ObjectPlacement p = EntityRef cls supers (S attrs) →
          "IfcLocalPlacement" ∉ cls :: supers →
          check_placement p g
          = Findings
              (errors g)
              (warnings g ++ [str_opt (Name p) +:+ ": ObjectPlacement is " +:+ cls
                              +:+ " (expected IfcLocalPlacement)"])
              (info g)))
  ∧ errors (validate_no_float_placements m f)
    = (errors f
       ++ concat (map (λ p, errors (check_placement p no_findings)) products))%list
  ∧ warnings (validate_no_float_placements m f)
    = (warnings f
       ++ concat (map (λ p, warnings (check_placement p no_findings)) products))%list
  ∧ info (validate_no_float_placements m f)
    = (info f ++ ["✓ Checked " +:+ len_str products
                  +:+ " products for valid placements"])%list.
Proof.
  intros products. split; [|split; [|split]].
  - intros p g. unfold check_placement. split; [|split].
    + by intros ->.
    + intros x Hraw Hx. split.
      * rewrite Hraw. by rewrite (raw_number_truthy x Hx).
      * apply mentions_app_r. by vm_compute.
    + intros cls supers attrs -> Hnot. simpl. unfold class_is_a.
      by rewrite bool_decide_eq_false_2.
  - unfold validate_no_float_placements. simpl.
    rewrite (for_each_fconcat check_placement) by apply check_placement_appender.
    simpl. by rewrite errors_fconcat, map_map.
  - unfold validate_no_float_placements. simpl.
    rewrite (for_each_fconcat check_placement) by apply check_placement_appender.
    simpl. by rewrite warnings_fconcat, map_map.
  - unfold validate_no_float_placements. simpl.
    by rewrite for_each_check_placement_info.
Qed.

Lemma placement_check_per_product_witness :
  let r := validate_no_float_placements Sample.misplaced no_findings in
  errors r
  = ["a: ObjectPlacement is null (must be IfcLocalPlacement)";
     "b: ObjectPlacement is not an IFC entity (possibly float)";
     "c: ObjectPlacement is null (must be IfcLocalPlacement)"]
  ∧ warnings r
    = ["None: ObjectPlacement is IfcGridPlacement (expected IfcLocalPlacement)"]
  ∧ info r = ["✓ Checked 4 products for valid placements"].
Proof.
  intros r.
  destruct (placement_check_per_product Sample.misplaced no_findings)
    as (_ & He & Hw & Hi).
  subst r. rewrite He, Hw, Hi. by vm_compute.
Defined.

(** C4 as the spec words it fails on a bare number: the Error of a number
    other than zero reads [possibly float], not [possibly a float], and the
    number zero is falsy, so it is reported as a null placement.  No error of
    the check mentions [possibly a float].  It also fails on an entity of a
    class without attributes: such a placement is falsy too, and gets the
    null Error instead of the Warning that names its class. *)
Lemma placement_raw_number_counterexample :
  let b := Sample.furnishing (Some "b") (RawValue (3 # 2)) ∅ in
  let c := Sample.furnishing (Some "c") (RawValue 0) ∅ in
  let v := Sample.furnishing (Some "v") Sample.vertex ∅ in
  by_type Sample.misplaced "IfcProduct" !! 1%nat = Some b
  ∧ by_type Sample.misplaced "IfcProduct" !! 2%nat = Some c
  ∧ check_placement b no_findings
    = Findings ["b: ObjectPlacement is not an IFC entity (possibly float)"] [] []
  ∧ check_placement c no_findings
    = Findings ["c: ObjectPlacement is null (must be IfcLocalPlacement)"] [] []
  ∧ check_placement v no_findings
    = Findings ["v: ObjectPlacement is null (must be IfcLocalPlacement)"] [] []
  ∧ ¬ (∃ msg,
         msg ∈ errors (validate_no_float_placements Sample.misplaced no_findings)
         ∧ mentions "possibly a float" msg = true).
Proof.
  intros b c v. repeat split; try reflexivity.
  intros (msg & Hin & Hmentions).
  assert (Forall (λ e, mentions "possibly a float" e = false)
            (errors (validate_no_float_placements Sample.misplaced no_findings)))
    as Hall by (vm_compute; repeat constructor).
  rewrite Forall_forall in Hall. specialize (Hall msg Hin). congruence.
Qed.

(** ** The property-set check *)

Section PropertySets.

Lemma nonempty_true_iff {A} (l : list A) : nonempty l = true ↔ l ≠ [].
Proof. destruct l; simpl; split; congruence. Qed.

Lemma check_property_set_step p f :
  errors (check_property_set p f) = errors f
  ∧ (length (warnings (check_property_set p f))
     + length (info (check_property_set p f))
     = S (length (warnings f) + length (info f)))%nat.
Proof.
  unfold check_property_set.
  repeat case_match; simpl; rewrite ?length_app; simpl; split; (done || lia).
Qed.

Lemma for_each_check_property_set ps f :
  errors (for_each check_property_set ps f) = errors f
  ∧ (length (warnings (for_each check_property_set ps f))
     + length (info (for_each check_property_set ps f))
     = length (warnings f) + length (info f) + length ps)%nat.
Proof.
  revert f. induction ps as [|p ps IH]; intros f.
  - simpl. split; [done | lia].
  - rewrite for_each_cons.
    destruct (IH (check_property_set p f)) as [He Hn].
    destruct (check_property_set_step p f) as [He' Hn'].
    split; [congruence | simpl; lia].
Qed.

End PropertySets.

(** C5.  For every FurnishingElement the property-set check appends exactly
    one finding.  Without the set [Pset_BoscotekCabinet] it is a Warning that
    starts with the element's name.  With the set, the names missing from it
    are those of BoscotekCode, Family, Manufacturer that are not keys of the
    set, kept in that order; when some are missing the finding is a Warning
    that lists them joined by a comma and a space, and when none is missing
    it is an Info that names the element.  The check leaves the error list
    as it found it, for every model, and what it appends to the warning and
    info lists is what the elements that [by_type("IfcFurnishingElement")]
    lists get, each from its own property sets, one after the other. *)
Theorem property_set_check_one_finding (m : model) (f : findings) :
  (∀ p g,
     (psets p !! "Pset_BoscotekCabinet" = None →
      check_property_set p g
      = Findings
          (errors g)
          (warnings g ++ [str_opt (Name p)
                          +:+ ": Missing Pset_BoscotekCabinet property set"])
          (info g))
     ∧ (∀ pset, psets p !! "Pset_BoscotekCabinet" = Some pset →
        let missing := missing_props pset in
        missing `sublist_of` ["BoscotekCode"; "Family"; "Manufacturer"]
        ∧ (∀ name,
             name ∈ missing
             ↔ name ∈ ["BoscotekCode"; "Family"; "Manufacturer"]
               ∧ pset !! name = None)
        ∧ (missing ≠ [] →
           check_property_set p g
           = Findings
               (errors g)
               (warnings g ++ [str_opt (Name p) +:+ ": Missing properties: "
                               +:+ join ", " missing])
               (info g))
        ∧ (missing = [] →
           check_property_set p g
           = Findings
               (errors g) (warnings g)
               (info g ++ ["✓ " +:+ str_opt (Name p)
                           +:+ ": Has complete Pset_BoscotekCabinet"]))))
  ∧ errors (validate_property_sets m f) = errors f
  ∧ (length (warnings (validate_property_sets m f))
     + length (info (validate_property_sets m f))
     = length (warnings f) + length (info f)
       + length (by_type m "IfcFurnishingElement"))%nat
  ∧ warnings (validate_property_sets m f)
    = (warnings f
       ++ concat (map (λ p, warnings (check_property_set p no_findings))
                      (by_type m "IfcFurnishingElement")))%list
  ∧ info (validate_property_sets m f)
    = (info f
       ++ concat (map (λ p, info (check_property_set p no_findings))
                      (by_type m "IfcFurnishingElement")))%list.
Proof.
  split.
  - intros p g. unfold check_property_set. split.
    + by intros ->.
    + intros pset Hpset. rewrite Hpset. cbv zeta.
      split; [apply sublist_filter|].
      split.
      { intros name. unfold missing_props.
        rewrite list_elem_of_filter. tauto. }
      split.
      * intros Hsome.
        by rewrite (proj2 (nonempty_true_iff (missing_props pset)) Hsome).
      * intros Hnone. by rewrite Hnone.
  - destruct (for_each_check_property_set
                (by_type m "IfcFurnishingElement") f) as [Herrors Hcount].
    split; [exact Herrors|]. split; [exact Hcount|].
    unfold validate_property_sets.
    rewrite (for_each_fconcat check_property_set)
      by apply check_property_set_appender.
    cbn [warnings info fapp].
    by rewrite warnings_fconcat, info_fconcat, !map_map.
Qed.

Lemma property_set_check_one_finding_witness :
  let p := Sample.furnishing (Some "Drawer unit") Sample.local_placement
             {[ "Pset_BoscotekCabinet" := {[ "Family" := "HD Cabinet" ]} ]} in
  by_type Sample.showroom "IfcFurnishingElement" !! 1%nat = Some p
  ∧ check_property_set p no_findings
    = Findings []
        ["Drawer unit: Missing properties: BoscotekCode, Manufacturer"] []
  ∧ validate_property_sets Sample.showroom no_findings
    = Findings []
        ["Drawer unit: Missing properties: BoscotekCode, Manufacturer";
         "None: Missing Pset_BoscotekCabinet property set"]
        ["✓ Cabinet: Has complete Pset_BoscotekCabinet"].
Proof.
  intros p.
  destruct (property_set_check_one_finding Sample.showroom no_findings)
    as (Hcases & Herrors & _ & Hwarnings & Hinfo).
  split; [reflexivity|]. split.
  - destruct (Hcases p no_findings) as [_ Hset].
    destruct (Hset {[ "Family" := "HD Cabinet" ]} eq_refl)
      as (_ & _ & Hsome & _).
    apply Hsome. by vm_compute.
  - apply findings_eq; cbn [errors warnings info].
    + rewrite Herrors. reflexivity.
    + rewrite Hwarnings. by vm_compute.
    + rewrite Hinfo. by vm_compute.
Defined.

(** ** Findings are only ever appended *)

(** C9.  Each of the seven check routines only appends to the three finding
    lists: the error, warning and info lists before a check are prefixes of
    the lists after it, and what a check appends does not depend on what the
    lists already hold, so nothing is removed, reordered, merged or
    deduplicated.  A run is these seven checks one after the other, so the
    same holds for the run. *)
Theorem check_routines_append_only (m : model) (f : findings) :
  Forall (λ check : model → findings → findings,
            ∀ g, (errors g `prefix_of` errors (check m g)
                  ∧ warnings g `prefix_of` warnings (check m g)
                  ∧ info g `prefix_of` info (check m g))
                 ∧ check m g = fapp g (check m no_findings))
         check_routines
  ∧ length check_routines = 7%nat
  ∧ run_checks m f = foldl (λ acc check, check m acc) f check_routines
  ∧ extends f (run_checks m f).
Proof.
  split; [|split; [done|split; [done|]]].
  - pose (routine (check : model → findings → findings)
            (H : appender (check m)) :=
            λ g, conj (appender_extends (check m) g H) (H g)).
    unfold check_routines. repeat apply Forall_cons_2; [..|by constructor].
    + exact (routine _ (validate_schema_appender m)).
    + exact (routine _ (validate_units_appender m)).
    + exact (routine _ (validate_spatial_hierarchy_appender m)).
    + exact (routine _ (validate_no_float_placements_appender m)).
    + exact (routine _ (validate_products_appender m)).
    + exact (routine _ (validate_property_sets_appender m)).
    + exact (routine _ (validate_relationships_appender m)).
  - apply appender_extends, run_checks_appender.
Qed.

(** ** The spatial hierarchy *)

Section Hierarchy.

(** With a Project and none of the three types, the spatial check ends its
    errors with the three messages. *)
Lemma spatial_errors_with_project m g :
  by_type m "IfcProject" ≠ [] →
  by_type m "IfcSite" = [] →
  by_type m "IfcBuilding" = [] →
  by_type m "IfcBuildingStorey" = [] →
  ∃ before,
    errors (validate_spatial_hierarchy m g)
    = (before
       ++ ["No IfcSite found (required)";
           "No IfcBuilding found (required)";
           "No IfcBuildingStorey found (CRITICAL - required for valid hierarchy)"])%list.
Proof.
  intros Hproject Hsite Hbuilding Hstorey. unfold validate_spatial_hierarchy.
  destruct (by_type m "IfcProject") as [|project others]; [done|].
  rewrite Hsite, Hbuilding, Hstorey.
  cbn [nonempty negb]. cbv zeta.
  destruct (negb (seq_truthy (RepresentationContexts project)));
    cbn [errors add_error add_info].
  - exists (errors g
            ++ ["IfcProject.RepresentationContexts is null (must be entity list)"])%list.
    by rewrite <- !app_assoc.
  - exists (errors g). by rewrite <- !app_assoc.
Qed.

Lemma spatial_errors_without_site m g :
  by_type m "IfcSite" = [] → errors (validate_spatial_hierarchy m g) ≠ [].
Proof.
  intros Hsite. unfold validate_spatial_hierarchy. rewrite Hsite.
  cbn [nonempty negb]. cbv zeta.
  destruct (by_type m "IfcProject") as [|project others];
    [cbn [errors add_error]; by intros [_ ?]%app_eq_nil|].
  assert (∀ h, errors h ≠ [] →
               ∀ (b : bool) s1 s2,
                 errors (if b then add_error s1 h else add_info s2 h) ≠ [])
    as Hkeep.
  { intros h Hh [] s1 s2; cbn [errors add_error add_info]; [|done].
    by intros [? _]%app_eq_nil. }
  apply Hkeep, Hkeep. cbn [errors add_error]. by intros [_ ?]%app_eq_nil.
Qed.

(** What the checks after the spatial one leave in front of their own
    errors. *)
Lemma run_checks_after_spatial m f :
  ∃ after,
    errors (run_checks m f)
    = (errors (validate_spatial_hierarchy m
                 (validate_units m (validate_schema m f))) ++ after)%list.
Proof.
  unfold run_checks. cbv zeta.
  set (g := validate_spatial_hierarchy m _).
  assert (extends g (validate_relationships m
                       (validate_property_sets m
                          (validate_products m
                             (validate_no_float_placements m g))))) as Hext.
  { eapply extends_trans;
      [apply (appender_extends _ g (validate_no_float_placements_appender m))|].
    eapply extends_trans;
      [apply (appender_extends _ _ (validate_products_appender m))|].
    eapply extends_trans;
      [apply (appender_extends _ _ (validate_property_sets_appender m))|].
    apply (appender_extends _ _ (validate_relationships_appender m)). }
  destruct Hext as [[after Hafter] _]. by exists after.
Qed.

Lemma exit_status_of_errors io prog ifc_file rest m :
  path_exists io ifc_file = true →
  ifc_open io ifc_file = inr m →
  errors (run_checks m no_findings) ≠ [] →
  (main io (prog :: ifc_file :: rest)).2 = 1.
Proof.
  intros Hex Hopen Herr.
  rewrite (main_runs io prog ifc_file rest m Hex Hopen). cbn [snd].
  destruct ((validate_all (Validator ifc_file no_findings m)).2) eqn:Hv;
    [|done].
  apply validate_all_true_iff in Hv. done.
Qed.

End Hierarchy.

(** C6 as the code has it.  A file with no Site, no Building and no
    BuildingStorey always ends with a non-empty error list and exit status
    1.  When the file holds a Project, the errors of the run contain, one
    after the other, the three distinct messages for the missing Site,
    Building and BuildingStorey, the last one flagged CRITICAL.  (Without a
    Project the spatial check returns after [No IfcProject found].) *)
Theorem missing_hierarchy_errors
    (io : provider) (prog ifc_file : string) (rest : list string) (m : model) :
  by_type m "IfcSite" = [] →
  by_type m "IfcBuilding" = [] →
  by_type m "IfcBuildingStorey" = [] →
  let fs := run_checks m no_findings in
  (by_type m "IfcProject" ≠ [] →
   ∃ before after,
     errors fs
     = (before
        ++ ["No IfcSite found (required)";
            "No IfcBuilding found (required)";
            "No IfcBuildingStorey found (CRITICAL - required for valid hierarchy)"]
        ++ after)%list)
  ∧ NoDup ["No IfcSite found (required)";
           "No IfcBuilding found (required)";
           "No IfcBuildingStorey found (CRITICAL - required for valid hierarchy)"]
  ∧ mentions "CRITICAL"
      "No IfcBuildingStorey found (CRITICAL - required for valid hierarchy)"
    = true
  ∧ errors fs ≠ []
  ∧ (path_exists io ifc_file = true →
     ifc_open io ifc_file = inr m →
     (main io (prog :: ifc_file :: rest)).2 = 1).
Proof.
  intros Hsite Hbuilding Hstorey fs.
  destruct (run_checks_after_spatial m no_findings) as [after Hafter].
  fold fs in Hafter.
  assert (errors fs ≠ []) as Hsome.
  { rewrite Hafter. intros Hnil. apply app_eq_nil in Hnil as [Hnil _].
    by apply (spatial_errors_without_site m _ Hsite) in Hnil. }
  split; [|split; [|split; [|split]]].
  - intros Hproject.
    destruct (spatial_errors_with_project m
                (validate_units m (validate_schema m no_findings))
                Hproject Hsite Hbuilding Hstorey) as [before Hbefore].
    exists before, after. rewrite Hafter, Hbefore. by rewrite <- app_assoc.
  - refine (bool_decide_unpack _ _). by vm_compute.
  - by vm_compute.
  - exact Hsome.
  - intros Hex Hopen. by apply (exit_status_of_errors io prog ifc_file rest m).
Qed.

Lemma missing_hierarchy_errors_witness :
  by_type Sample.unhoused "IfcSite" = []
  ∧ by_type Sample.unhoused "IfcBuilding" = []
  ∧ by_type Sample.unhoused "IfcBuildingStorey" = []
  ∧ (main (Sample.serving Sample.unhoused) ["validate_ifc.py"; "unhoused.ifc"]).2
    = 1.
Proof.
  split; [reflexivity|]. split; [reflexivity|]. split; [reflexivity|].
  destruct (missing_hierarchy_errors (Sample.serving Sample.unhoused)
              "validate_ifc.py" "unhoused.ifc" [] Sample.unhoused
              eq_refl eq_refl eq_refl) as (_ & _ & _ & _ & Hexit).
  apply Hexit; reflexivity.
Defined.

(** C6 as the spec words it fails on a file without a Project: the file has
    no Site, Building or BuildingStorey, yet its only errors are the two
    [No IfcProject found], so no three distinct errors exist. *)
Lemma missing_hierarchy_without_project_counterexample :
  by_type Sample.hollow "IfcSite" = []
  ∧ by_type Sample.hollow "IfcBuilding" = []
  ∧ by_type Sample.hollow "IfcBuildingStorey" = []
  ∧ errors (run_checks Sample.hollow no_findings)
    = ["No IfcProject found"; "No IfcProject found"]
  ∧ ¬ (∃ e1 e2 e3,
         e1 ≠ e2 ∧ e1 ≠ e3 ∧ e2 ≠ e3
         ∧ e1 ∈ errors (run_checks Sample.hollow no_findings)
         ∧ e2 ∈ errors (run_checks Sample.hollow no_findings)
         ∧ e3 ∈ errors (run_checks Sample.hollow no_findings)).
Proof.
  repeat split; try reflexivity.
  intros (e1 & e2 & e3 & H12 & _ & _ & H1 & H2 & _).
  change (errors (run_checks Sample.hollow no_findings))
    with ["No IfcProject found"; "No IfcProject found"] in H1, H2.
  apply H12.
  assert (∀ e, e ∈ ["No IfcProject found"; "No IfcProject found"] →
               e = "No IfcProject found") as Hsame.
  { intros e He. rewrite !elem_of_cons, elem_of_nil in He. tauto. }
  by rewrite (Hsame e1 H1), (Hsame e2 H2).
Qed.

(** ** A file that cannot be opened *)

Section OpenFailure.

Lemma starts_apart (c d : ascii) (s t : string) :
  c ≠ d → String c s ≠ String d t.
Proof. congruence. Qed.

(** A run that completes prints the title of the report. *)
Lemma report_title_printed v :
  "VALIDATION RESULTS" ∈ (validate_all v).1.1.
Proof.
  unfold validate_all, print_results. cbn [fst].
  rewrite !elem_of_app, !elem_of_cons. tauto.
Qed.

Lemma main_file_not_found io prog ifc_file rest :
  path_exists io ifc_file = false →
  main io (prog :: ifc_file :: rest)
  = (["ERROR: File not found: " +:+ ifc_file], 1).
Proof. intros Hex. unfold main. by rewrite Hex. Qed.

Lemma main_open_failed io prog ifc_file rest e :
  path_exists io ifc_file = true →
  ifc_open io ifc_file = inl e →
  main io (prog :: ifc_file :: rest)
  = ([nl +:+ "ERROR: Failed to open IFC file: " +:+ e], 1).
Proof.
  intros Hex Hopen. unfold main, IFCValidator. by rewrite Hex, Hopen.
Qed.

End OpenFailure.

(** C7.  When the file cannot be opened, the exception of
    [ifcopenshell.open] leaves the constructor wrapped in
    [Failed to open IFC file: ...] and reaches [main], which prints one
    line holding [ERROR: ] and exits with status 1.  A path that does not
    exist is reported by [main] in the same way, with
    [ERROR: File not found: ...].  In both cases that line is all that is
    printed: the report and its title [VALIDATION RESULTS] are not, and the
    run produces no finding lists. *)
Theorem open_failure_exits_without_report
    (io : provider) (prog ifc_file : string) (rest : list string) :
  path_exists io ifc_file = false ∨ (∃ e, ifc_open io ifc_file = inl e) →
  (∀ e, ifc_open io ifc_file = inl e →
        IFCValidator io ifc_file = inl ("Failed to open IFC file: " +:+ e)
        ∧ run_findings io ifc_file = None
        ∧ (path_exists io ifc_file = true →
           main io (prog :: ifc_file :: rest)
           = ([nl +:+ "ERROR: Failed to open IFC file: " +:+ e], 1)))
  ∧ (path_exists io ifc_file = false →
     main io (prog :: ifc_file :: rest)
     = (["ERROR: File not found: " +:+ ifc_file], 1))
  ∧ ∃ line,
      main io (prog :: ifc_file :: rest) = ([line], 1)
      ∧ mentions "ERROR: " line = true
      ∧ "VALIDATION RESULTS" ∉ (main io (prog :: ifc_file :: rest)).1.
Proof.
  intros Hfail. split; [|split].
  - intros e Hopen. unfold run_findings, IFCValidator. rewrite Hopen.
    repeat split. intros Hex. by apply main_open_failed.
  - apply main_file_not_found.
  - destruct (path_exists io ifc_file) eqn:Hex.
    + destruct Hfail as [|[e Hopen]]; [done|].
      exists (nl +:+ "ERROR: Failed to open IFC file: " +:+ e).
      rewrite (main_open_failed io prog ifc_file rest e Hex Hopen).
      split; [done|]. split.
      * apply (mentions_app_r "ERROR: " nl).
        apply (mentions_prefix "ERROR: ").
      * cbn [fst]. rewrite elem_of_cons, elem_of_nil.
        intros [Heq|[]]. by apply starts_apart in Heq.
    + exists ("ERROR: File not found: " +:+ ifc_file).
      rewrite (main_file_not_found io prog ifc_file rest Hex).
      split; [done|]. split.
      * apply (mentions_prefix "ERROR: ").
      * cbn [fst]. rewrite elem_of_cons, elem_of_nil.
        intros [Heq|[]]. by apply starts_apart in Heq.
Qed.

Lemma open_failure_exits_without_report_witness :
  (∃ e, ifc_open Sample.unparseable "broken.ifc" = inl e)
  ∧ main Sample.unparseable ["validate_ifc.py"; "broken.ifc"]
    = ([nl +:+ "ERROR: Failed to open IFC file: Unable to parse IFC SPF header"],
       1).
Proof.
  split; [by eexists|].
  destruct (open_failure_exits_without_report Sample.unparseable
              "validate_ifc.py" "broken.ifc" []) as (Hopen & _ & _).
  - right. by eexists.
  - destruct (Hopen "Unable to parse IFC SPF header" eq_refl) as (_ & _ & Hmain).
    apply Hmain. reflexivity.
Defined.

(** ** Two runs on one model *)

(** C8.  Two runs whose files open as the same model end with the same
    error, warning and info lists and the same exit status, whatever the
    provider, the program name, the path and the extra arguments are; when
    the two paths also have the same base name, the two runs print the
    same text. *)
Theorem runs_on_same_model_agree
    (io1 io2 : provider) (prog1 prog2 path1 path2 : string)
    (rest1 rest2 : list string) (m : model) :
  path_exists io1 path1 = true →
  ifc_open io1 path1 = inr m →
  path_exists io2 path2 = true →
  ifc_open io2 path2 = inr m →
  run_findings io1 path1 = run_findings io2 path2
  ∧ (∃ fs, run_findings io1 path1 = Some fs)
  ∧ (main io1 (prog1 :: path1 :: rest1)).2 = (main io2 (prog2 :: path2 :: rest2)).2
  ∧ (basename path1 = basename path2 →
     main io1 (prog1 :: path1 :: rest1) = main io2 (prog2 :: path2 :: rest2)).
Proof.
  intros Hex1 Hopen1 Hex2 Hopen2.
  rewrite (run_findings_opened io1 path1 m Hopen1),
    (run_findings_opened io2 path2 m Hopen2),
    (main_runs io1 prog1 path1 rest1 m Hex1 Hopen1),
    (main_runs io2 prog2 path2 rest2 m Hex2 Hopen2).
  split; [done|]. split; [by eexists|]. split; [done|].
  intros Hbase. unfold validate_all. cbn [fst snd file_path opened found].
  by rewrite Hbase.
Qed.

Lemma runs_on_same_model_agree_witness :
  let io1 := Sample.serving Sample.unhoused in
  let io2 := Provider (λ p, bool_decide (p = "b/unhoused.ifc"))
                      (λ _, inr Sample.unhoused) in
  main io1 ["validate_ifc.py"; "a/unhoused.ifc"]
  = main io2 ["./validate_ifc.py"; "b/unhoused.ifc"; "--verbose"].
Proof.
  intros io1 io2.
  destruct (runs_on_same_model_agree io1 io2 "validate_ifc.py" "./validate_ifc.py"
              "a/unhoused.ifc" "b/unhoused.ifc" [] ["--verbose"] Sample.unhoused
              eq_refl eq_refl eq_refl eq_refl) as (_ & _ & _ & Hsame).
  apply Hsame. reflexivity.
Defined.

(** ** A model without a Project *)

Section NoProject.

Local Abbreviation no_project := "No IfcProject found" (only parsing).

Lemma string_length_app (s t : string) :
  String.length (s +:+ t) = (String.length s + String.length t)%nat.
Proof. induction s as [|c s IH]; simpl; [done | by rewrite IH]. Qed.

(** A message longer than the text looked for is another text. *)
Lemma longer_is_other (s t : string) :
  (String.length no_project < String.length s + String.length t)%nat →
  s +:+ t ≠ no_project.
Proof.
  intros Hlen Heq. apply (f_equal String.length) in Heq.
  rewrite string_length_app in Heq. lia.
Qed.

Lemma occurrences_snoc msg l e :
  occurrences msg (l ++ [e])
  = (occurrences msg l + if decide (e = msg) then 1 else 0)%nat.
Proof.
  unfold occurrences. rewrite filter_app, length_app. f_equal.
  rewrite filter_cons, filter_nil. by destruct (decide (e = msg)).
Qed.

Lemma occurrences_add_other msg f :
  msg ≠ no_project →
  occurrences no_project (errors (add_error msg f))
  = occurrences no_project (errors f).
Proof.
  intros Hne. cbn [errors add_error]. rewrite occurrences_snoc.
  destruct (decide (msg = no_project)); [done | lia].
Qed.

Lemma occurrences_add_same f :
  occurrences no_project (errors (add_error no_project f))
  = S (occurrences no_project (errors f)).
Proof.
  cbn [errors add_error]. rewrite occurrences_snoc.
  destruct (decide (no_project = no_project)); [lia | done].
Qed.

Lemma occurrences_for_each {A} (body : A → findings → findings) xs f :
  (∀ x g, occurrences no_project (errors (body x g))
          = occurrences no_project (errors g)) →
  occurrences no_project (errors (for_each body xs f))
  = occurrences no_project (errors f).
Proof.
  intros Hbody. revert f. induction xs as [|x xs IH]; intros f; [done|].
  by rewrite for_each_cons, IH, Hbody.
Qed.

Ltac other_text :=
  first [ discriminate
        | apply longer_is_other; rewrite ?string_length_app; cbn; lia ].

Ltac unchanged def :=
  unfold def; repeat case_match; cbn [errors add_warning add_info];
  rewrite ?occurrences_add_other by other_text; reflexivity.

Lemma occurrences_validate_schema m f :
  occurrences no_project (errors (validate_schema m f))
  = occurrences no_project (errors f).
Proof. unchanged validate_schema. Qed.

Lemma occurrences_check_placement p f :
  occurrences no_project (errors (check_placement p f))
  = occurrences no_project (errors f).
Proof. unchanged check_placement. Qed.

Lemma occurrences_check_product p f :
  occurrences no_project (errors (check_product p f))
  = occurrences no_project (errors f).
Proof. unchanged check_product. Qed.

Lemma occurrences_check_property_set p f :
  occurrences no_project (errors (check_property_set p f))
  = occurrences no_project (errors f).
Proof. unchanged check_property_set. Qed.

Lemma occurrences_check_related_object obj f :
  occurrences no_project (errors (check_related_object obj f))
  = occurrences no_project (errors f).
Proof. unchanged check_related_object. Qed.

Lemma occurrences_check_aggregate rel f :
  occurrences no_project (errors (check_aggregate rel f))
  = occurrences no_project (errors f).
Proof.
  unfold check_aggregate. cbv zeta.
  assert (occurrences no_project
            (errors (if negb (has_is_a (RelatingObject rel))
                     then add_error
                            "IfcRelAggregates.RelatingObject is not an entity (possibly float)"
                            f
                     else f))
          = occurrences no_project (errors f)) as Hfirst.
  { case_match; [|done]. by rewrite occurrences_add_other. }
  destruct (negb (seq_truthy (RelatedObjects rel))).
  - rewrite occurrences_add_other by done. exact Hfirst.
  - rewrite (occurrences_for_each check_related_object)
      by apply occurrences_check_related_object.
    exact Hfirst.
Qed.

Lemma occurrences_check_containment rel f :
  occurrences no_project (errors (check_containment rel f))
  = occurrences no_project (errors f).
Proof. unchanged check_containment. Qed.

Lemma occurrences_after_spatial m f :
  occurrences no_project
    (errors (validate_relationships m
               (validate_property_sets m
                  (validate_products m (validate_no_float_placements m f)))))
  = occurrences no_project (errors f).
Proof.
  unfold validate_relationships, validate_property_sets, validate_products,
    validate_no_float_placements.
  cbv zeta. cbn [errors add_info].
  rewrite (occurrences_for_each check_containment)
    by apply occurrences_check_containment.
  rewrite (occurrences_for_each check_aggregate)
    by apply occurrences_check_aggregate.
  rewrite (occurrences_for_each check_property_set)
    by apply occurrences_check_property_set.
  cbn [errors add_info].
  rewrite (occurrences_for_each check_product)
    by apply occurrences_check_product.
  cbn [errors add_info].
  by rewrite (occurrences_for_each check_placement)
    by apply occurrences_check_placement.
Qed.

End NoProject.

(** C10.  In a model without a Project the units check and the
    spatial-hierarchy check each append the error [No IfcProject found] and
    nothing else, and no other check produces that text: the errors of a
    full run hold it exactly twice. *)
Theorem no_project_reported_twice (m : model) :
  by_type m "IfcProject" = [] →
  (∀ f, validate_units m f
        = Findings (errors f ++ ["No IfcProject found"]) (warnings f) (info f))
  ∧ (∀ f, validate_spatial_hierarchy m f
          = Findings (errors f ++ ["No IfcProject found"]) (warnings f) (info f))
  ∧ occurrences "No IfcProject found" (errors (run_checks m no_findings)) = 2%nat.
Proof.
  intros Hnone.
  assert (∀ f, validate_units m f = add_error "No IfcProject found" f) as Hunits.
  { intros f. unfold validate_units. by rewrite Hnone. }
  assert (∀ f, validate_spatial_hierarchy m f
               = add_error "No IfcProject found" f) as Hspatial.
  { intros f. unfold validate_spatial_hierarchy. by rewrite Hnone. }
  split; [exact Hunits|]. split; [exact Hspatial|].
  unfold run_checks. cbv zeta.
  rewrite occurrences_after_spatial, Hspatial, Hunits.
  by rewrite !occurrences_add_same, occurrences_validate_schema.
Qed.

Lemma no_project_reported_twice_witness :
  by_type Sample.misplaced "IfcProject" = []
  ∧ occurrences "No IfcProject found"
      (errors (run_checks Sample.misplaced no_findings)) = 2%nat.
Proof.
  split; [reflexivity|].
  by destruct (no_project_reported_twice Sample.misplaced eq_refl) as (_ & _ & ->).
Defined.

(** * Further properties of the checks *)

(** ** What a check leaves unchanged *)

Section Unchanged.

Lemma app_unchanged_iff {A} (l k : list A) : (l ++ k)%list = l ↔ k = [].
Proof.
  split.
  - intros Heq. apply (app_inv_head l). by rewrite app_nil_r.
  - intros ->. apply app_nil_r.
Qed.

Lemma appender_errors_unchanged c f :
  appender c → (errors (c f) = errors f ↔ errors (c no_findings) = []).
Proof. intros Hc. rewrite (Hc f). cbn [errors fapp]. apply app_unchanged_iff. Qed.

Lemma appender_warnings_unchanged c f :
  appender c → (warnings (c f) = warnings f ↔ warnings (c no_findings) = []).
Proof.
  intros Hc. rewrite (Hc f). cbn [warnings fapp]. apply app_unchanged_iff.
Qed.

Lemma for_each_errors {A} (body : A → findings → findings) xs f :
  (∀ x, appender (body x)) →
  errors (for_each body xs f)
  = (errors f ++ concat (map (λ x, errors (body x no_findings)) xs))%list.
Proof.
  intros Hbody. rewrite (for_each_fconcat body xs f Hbody).
  cbn [errors fapp]. by rewrite errors_fconcat, map_map.
Qed.

Lemma for_each_warnings {A} (body : A → findings → findings) xs f :
  (∀ x, appender (body x)) →
  warnings (for_each body xs f)
  = (warnings f ++ concat (map (λ x, warnings (body x no_findings)) xs))%list.
Proof.
  intros Hbody. rewrite (for_each_fconcat body xs f Hbody).
  cbn [warnings fapp]. by rewrite warnings_fconcat, map_map.
Qed.

Lemma for_each_info {A} (body : A → findings → findings) xs f :
  (∀ x, appender (body x)) →
  info (for_each body xs f)
  = (info f ++ concat (map (λ x, info (body x no_findings)) xs))%list.
Proof.
  intros Hbody. rewrite (for_each_fconcat body xs f Hbody).
  cbn [info fapp]. by rewrite info_fconcat, map_map.
Qed.

Lemma concat_map_nil_iff {A B} (g : A → list B) (xs : list A) :
  concat (map g xs) = [] ↔ Forall (λ x, g x = []) xs.
Proof. by rewrite concat_nil_Forall, Forall_map. Qed.

Lemma length_concat_map_le {A B} (g : A → list B) (xs : list A) :
  (∀ x, length (g x) ≤ 1)%nat →
  (length (concat (map g xs)) ≤ length xs)%nat.
Proof.
  intros Hg. induction xs as [|x xs IH]; simpl; [done|].
  rewrite length_app. specialize (Hg x). lia.
Qed.

End Unchanged.

(** ** The placement check, seen from the model *)

Section PlacementAccepts.

Lemma check_placement_no_error p :
  errors (check_placement p no_findings) = []
  ↔ ∃ cls supers attrs, ObjectPlacement p = EntityRef cls supers (S attrs).
Proof.
  unfold check_placement.
  destruct (ObjectPlacement p) as [|x|cls supers [|attrs]];
    cbn [truthy has_is_a negb Nat.eqb].
  - split; [done|]. by intros (? & ? & ? & ?).
  - split; [by destruct (negb (Qeq_bool x 0))|]. by intros (? & ? & ? & ?).
  - split; [done|]. by intros (? & ? & ? & ?).
  - split; [by eexists _, _, _|]. intros _.
    by destruct (negb (class_is_a cls supers "IfcLocalPlacement")).
Qed.

Lemma check_placement_no_warning p :
  warnings (check_placement p no_findings) = []
  ↔ ∀ cls supers attrs,
      ObjectPlacement p = EntityRef cls supers (S attrs) →
      "IfcLocalPlacement" ∈ cls :: supers.
Proof.
  unfold check_placement.
  destruct (ObjectPlacement p) as [|x|cls supers [|attrs]];
    cbn [truthy has_is_a negb Nat.eqb].
  - done.
  - by destruct (negb (Qeq_bool x 0)).
  - done.
  - unfold class_is_a. case_bool_decide as Hin; cbn [negb].
    + split; [|done]. by intros _ ? ? ? [= <- <- _].
    + split; [done|]. intros Hall. destruct Hin. by eapply Hall.
Qed.



End PlacementAccepts.


(** ** The product check *)

Section ProductWarnings.

Lemma check_product_errors p f : errors (check_product p f) = errors f.
Proof. unfold check_product. by repeat case_match. Qed.

Lemma check_product_info p f : info (check_product p f) = info f.
Proof. unfold check_product. by repeat case_match. Qed.

Lemma for_each_check_product_keeps ps f :
  errors (for_each check_product ps f) = errors f
  ∧ info (for_each check_product ps f) = info f.
Proof.
  revert f. induction ps as [|p ps IH]; intros f; [done|].
  rewrite for_each_cons. destruct (IH (check_product p f)) as [-> ->].
  by rewrite check_product_errors, check_product_info.
Qed.

Lemma check_product_no_warning p :
  warnings (check_product p no_findings) = []
  ↔ ifc_class p ∈ spatial_classes
    ∨ (truthy (Representation p) = true ∧ text_truthy (ObjectType p) = true).
Proof.
  unfold check_product. case_bool_decide as Hclass.
  { split; [by left | done]. }
  destruct (truthy (Representation p)), (text_truthy (ObjectType p));
    cbn [negb warnings add_warning no_findings app].
  - split; [by right | done].
  - split; [done | by intros [?|[? ?]]].
  - split; [done | by intros [?|[? ?]]].
  - split; [done | by intros [?|[? ?]]].
Qed.

Lemma check_product_warning_count p :
  (length (warnings (check_product p no_findings))
   ≤ if bool_decide (ifc_class p ∈ spatial_classes) then 0 else 1)%nat.
Proof.
  unfold check_product. case_bool_decide; [done|].
  repeat case_match; simpl; lia.
Qed.

Lemma product_warnings_bound ps :
  (length (concat (map (λ p, warnings (check_product p no_findings)) ps))
   ≤ length (filter (λ p, ifc_class p ∉ spatial_classes) ps))%nat.
Proof.
  induction ps as [|p ps IH]; [done|].
  cbn [map concat]. rewrite length_app, filter_cons.
  pose proof (check_product_warning_count p) as Hp.
  destruct (decide (ifc_class p ∉ spatial_classes)) as [Hout|Hin].
  - rewrite bool_decide_eq_false_2 in Hp by done. simpl. lia.
  - rewrite bool_decide_eq_true_2 in Hp by (by apply dec_stable). lia.
Qed.

End ProductWarnings.

(** X2.  The product check never reports an error.  It appends one Info
    with the number of IfcFurnishingElement entities, and at most one
    Warning for each product whose class is not Project, Site, Building or
    BuildingStorey.  It appends no Warning exactly when every product is of
    one of these four classes or has both a Representation and a non-empty
    ObjectType.  A product without Representation gets the geometry Warning
    only: its ObjectType is not looked at. *)
Theorem product_check_only_warns (m : model) (f : findings) :
  let products := by_type m "IfcProduct" in
  let r := validate_products m f in
  errors r = errors f
  ∧ info r
    = (info f ++ ["✓ Found " +:+ len_str (by_type m "IfcFurnishingElement")
                  +:+ " IfcFurnishingElement(s)"])%list
  ∧ (warnings r = warnings f
     ↔ Forall (λ p, ifc_class p ∈ ["IfcProject"; "IfcSite"; "IfcBuilding";
                                   "IfcBuildingStorey"]
                    ∨ (truthy (Representation p) = true
                       ∧ text_truthy (ObjectType p) = true))
              products)
  ∧ (length (warnings r)
     ≤ length (warnings f)
       + length (filter (λ p, ifc_class p ∉ ["IfcProject"; "IfcSite";
                                             "IfcBuilding"; "IfcBuildingStorey"])
                        products))%nat
  ∧ (∀ p g,
       ifc_class p ∉ ["IfcProject"; "IfcSite"; "IfcBuilding"; "IfcBuildingStorey"] →
       truthy (Representation p) = false →
       check_product p g
       = Findings (errors g)
                  (warnings g ++ [str_opt (Name p)
                                  +:+ ": No Representation (geometry missing)"])
                  (info g)).
Proof.
  intros products r. subst r. unfold validate_products. cbv zeta.
  fold products. cbn [errors warnings info add_info].
  destruct (for_each_check_product_keeps products f) as [-> ->].
  rewrite (for_each_warnings check_product) by apply check_product_appender.
  rewrite app_unchanged_iff, concat_map_nil_iff, length_app.
  split; [done|]. split; [done|]. split; [|split].
  - apply Forall_proper; [|done]. intros p. apply check_product_no_warning.
  - pose proof (product_warnings_bound products) as Hbound.
    unfold spatial_classes in Hbound. lia.
  - intros p g Hclass Hrep. unfold check_product.
    rewrite bool_decide_eq_false_2 by exact Hclass. by rewrite Hrep.
Qed.

Lemma product_check_only_warns_witness :
  let p := Entity "IfcFurnishingElement" ["IfcElement"; "IfcProduct"]
             (Some "Shelf") Sample.local_placement Absent None None None ∅
             Absent None Absent in
  check_product p no_findings
  = Findings [] ["Shelf: No Representation (geometry missing)"] [].
Proof.
  intros p.
  destruct (product_check_only_warns Sample.hollow no_findings)
    as (_ & _ & _ & _ & Hrep).
  apply Hrep; [|reflexivity].
  apply (bool_decide_eq_false_1 (_ ∈ _)). reflexivity.
Defined.

(** ** The relationship check *)

Section Relationships.

Lemma related_objects_errors objs f :
  warnings (for_each check_related_object objs f) = warnings f
  ∧ info (for_each check_related_object objs f) = info f
  ∧ length (errors (for_each check_related_object objs f))
    = (length (errors f)
       + length (filter (λ obj, has_is_a obj = false) objs))%nat.
Proof.
  revert f. induction objs as [|obj objs IH]; intros f.
  - cbn. split; [done|]. split; [done|]. lia.
  - rewrite for_each_cons, filter_cons.
    destruct (IH (check_related_object obj f)) as (-> & -> & ->).
    unfold check_related_object.
    destruct (has_is_a obj); cbn [negb].
    + rewrite decide_False by done. done.
    + rewrite decide_True by done.
      cbn [errors warnings info add_error]. rewrite length_app. simpl.
      split; [done|]. split; [done|]. lia.
Qed.

Lemma check_aggregate_no_error rel :
  errors (check_aggregate rel no_findings) = []
  ↔ has_is_a (RelatingObject rel) = true
    ∧ ∃ obj objs, RelatedObjects rel = Some (obj :: objs)
                  ∧ Forall (λ o, has_is_a o = true) (obj :: objs).
Proof.
  unfold check_aggregate. cbv zeta.
  destruct (has_is_a (RelatingObject rel)); cbn [negb].
  - destruct (RelatedObjects rel) as [[|obj objs]|]; cbn [seq_truthy negb default].
    + split; [done|]. by intros (_ & ? & ? & ? & _).
    + rewrite (for_each_errors check_related_object)
        by apply check_related_object_appender.
      cbn [errors no_findings app]. rewrite concat_map_nil_iff.
      split.
      * intros Hall. split; [done|]. exists obj, objs. split; [done|].
        eapply Forall_impl; [exact Hall|]. intros o. unfold check_related_object.
        by destruct (has_is_a o).
      * intros (_ & obj' & objs' & [= <- <-] & Hall).
        eapply Forall_impl; [exact Hall|]. intros o Ho.
        unfold check_related_object. by rewrite Ho.
    + split; [done|]. by intros (_ & ? & ? & ? & _).
  - split; [|by intros [? _]].
    destruct (negb (seq_truthy (RelatedObjects rel))).
    + done.
    + rewrite (for_each_errors check_related_object)
        by apply check_related_object_appender.
      done.
Qed.

Lemma check_containment_no_error rel :
  errors (check_containment rel no_findings) = []
  ↔ has_is_a (RelatingStructure rel) = true.
Proof.
  unfold check_containment. cbv zeta.
  destruct (RelatingStructure rel) as [|x|cls supers attrs];
    cbn [has_is_a negb]; try done.
  by repeat case_match.
Qed.

Lemma check_containment_no_warning rel :
  warnings (check_containment rel no_findings) = []
  ↔ ∀ cls supers attrs, RelatingStructure rel = EntityRef cls supers attrs →
                        "IfcBuilding" ∉ cls :: supers.
Proof.
  unfold check_containment. cbv zeta.
  destruct (RelatingStructure rel) as [|x|cls supers attrs];
    cbn [has_is_a negb]; try done.
  unfold class_is_a. case_bool_decide as Hin.
  - split; [done|]. intros Hall. by destruct (Hall cls supers attrs).
  - split; [by intros _ ? ? ? [= <- <- _]|]. intros _. by case_bool_decide.
Qed.

Lemma check_aggregate_warnings rel f :
  warnings (check_aggregate rel f) = warnings f
  ∧ info (check_aggregate rel f) = info f.
Proof.
  unfold check_aggregate. cbv zeta.
  destruct (negb (seq_truthy (RelatedObjects rel))).
  - by destruct (negb (has_is_a (RelatingObject rel))).
  - destruct (related_objects_errors (default [] (RelatedObjects rel))
                (if negb (has_is_a (RelatingObject rel))
                 then add_error
                        "IfcRelAggregates.RelatingObject is not an entity (possibly float)"
                        f
                 else f)) as (-> & -> & _).
    by destruct (negb (has_is_a (RelatingObject rel))).
Qed.

Lemma for_each_check_aggregate_warnings rels f :
  warnings (for_each check_aggregate rels f) = warnings f.
Proof.
  revert f. induction rels as [|rel rels IH]; intros f; [done|].
  rewrite for_each_cons, IH. apply check_aggregate_warnings.
Qed.

End Relationships.

(** X3.  For one IfcRelAggregates the check appends only errors, and their
    number is: one when the relating object is not an entity, plus one when
    the related objects are [None] or empty, or else one for each related
    object that is not an entity. *)
Theorem aggregate_error_count (rel : entity) (f : findings) :
  warnings (check_aggregate rel f) = warnings f
  ∧ info (check_aggregate rel f) = info f
  ∧ length (errors (check_aggregate rel f))
    = (length (errors f)
       + (if has_is_a (RelatingObject rel) then 0 else 1)
       + match RelatedObjects rel with
         | Some (obj :: objs) =>
             length (filter (λ o, has_is_a o = false) (obj :: objs))
         | _ => 1
         end)%nat.
Proof.
  destruct (check_aggregate_warnings rel f) as [Hw Hi].
  split; [exact Hw|]. split; [exact Hi|].
  unfold check_aggregate. cbv zeta.
  set (f1 := if negb (has_is_a (RelatingObject rel)) then _ else f).
  assert (length (errors f1)
          = (length (errors f)
             + if has_is_a (RelatingObject rel) then 0 else 1)%nat) as Hf1.
  { subst f1. destruct (has_is_a (RelatingObject rel)); cbn [negb].
    - lia.
    - cbn [errors add_error]. rewrite length_app. simpl. lia. }
  destruct (RelatedObjects rel) as [[|obj objs]|]; cbn [seq_truthy negb default].
  - cbn [errors add_error]. rewrite length_app. simpl. lia.
  - change (id (obj :: objs)) with (obj :: objs).
    destruct (related_objects_errors (obj :: objs) f1) as (_ & _ & ->). lia.
  - cbn [errors add_error]. rewrite length_app. simpl. lia.
Qed.

(** X4.  The relationship check leaves the error list as it was exactly
    when every IfcRelAggregates has an entity as relating object and a
    non-empty list of entities as related objects, and every
    IfcRelContainedInSpatialStructure has an entity as relating structure.
    It leaves the warning list as it was exactly when no containment has a
    relating structure that is an IfcBuilding.  A relating structure that is
    an entity of another class than IfcBuilding and IfcBuildingStorey is
    accepted without any finding.  The last Info is always the line with
    the two counts. *)
Theorem relationship_check_accepts (m : model) (f : findings) :
  let aggregates := by_type m "IfcRelAggregates" in
  let containments := by_type m "IfcRelContainedInSpatialStructure" in
  let r := validate_relationships m f in
  (errors r = errors f
   ↔ Forall (λ rel, has_is_a (RelatingObject rel) = true
                    ∧ ∃ obj objs,
                        RelatedObjects rel = Some (obj :: objs)
                        ∧ Forall (λ o, has_is_a o = true) (obj :: objs))
            aggregates
     ∧ Forall (λ rel, has_is_a (RelatingStructure rel) = true) containments)
  ∧ (warnings r = warnings f
     ↔ Forall (λ rel, ∀ cls supers attrs,
                        RelatingStructure rel = EntityRef cls supers attrs →
                        "IfcBuilding" ∉ cls :: supers)
              containments)
  ∧ (∀ rel g cls supers attrs,
       RelatingStructure rel = EntityRef cls supers attrs →
       "IfcBuilding" ∉ cls :: supers →
       "IfcBuildingStorey" ∉ cls :: supers →
       check_containment rel g = g)
  ∧ last (info r)
    = Some ("✓ Validated " +:+ len_str aggregates +:+ " aggregation and "
            +:+ len_str containments +:+ " containment relationships").
Proof.
  intros aggregates containments r. subst r. unfold validate_relationships.
  cbv zeta. fold aggregates containments. cbn [errors warnings info add_info].
  split; [|split; [|split]].
  - rewrite (for_each_errors check_containment)
      by apply check_containment_appender.
    rewrite (for_each_errors check_aggregate)
      by apply check_aggregate_appender.
    rewrite <- app_assoc, app_unchanged_iff, app_nil, !concat_map_nil_iff.
    split; intros [Haggregates Hcontainments]; split;
      (eapply Forall_impl; [eassumption|]); intros rel;
      first [apply check_aggregate_no_error | apply check_containment_no_error].
  - rewrite (for_each_warnings check_containment)
      by apply check_containment_appender.
    rewrite for_each_check_aggregate_warnings.
    rewrite app_unchanged_iff, concat_map_nil_iff.
    apply Forall_proper; [|done]. intros rel. apply check_containment_no_warning.
  - intros rel g cls supers attrs Hrel Hbuilding Hstorey.
    unfold check_containment.
    rewrite Hrel. cbn [has_is_a negb]. unfold class_is_a.
    by rewrite !bool_decide_eq_false_2.
  - apply last_snoc.
Qed.

Lemma relationship_check_accepts_witness :
  check_containment
    (Sample.contained_in (EntityRef "IfcSpace" ["IfcSpatialStructureElement"] 11))
    no_findings
  = no_findings.
Proof.
  destruct (relationship_check_accepts Sample.hollow no_findings)
    as (_ & _ & Hother & _).
  apply (Hother
           (Sample.contained_in
              (EntityRef "IfcSpace" ["IfcSpatialStructureElement"] 11))
           no_findings "IfcSpace" ["IfcSpatialStructureElement"] 11%nat eq_refl);
    apply (bool_decide_eq_false_1 (_ ∈ _)); reflexivity.
Defined.

(** ** The spatial hierarchy and the units, seen from the model *)

Section HierarchyAccepts.

(** One [if not xs: error else: info] step. *)
Lemma either_step_count (b : bool) (s1 s2 : string) (h : findings) :
  let r := if b then add_error s1 h else add_info s2 h in
  warnings r = warnings h
  ∧ (length (errors r) + length (info r)
     = S (length (errors h) + length (info h)))%nat.
Proof.
  destruct b; cbn [errors warnings info add_error add_info];
    rewrite length_app; simpl; split; (done || lia).
Qed.

Lemma four_steps_count (b1 b2 b3 b4 : bool) (s1 s2 s3 s4 s5 s6 s7 s8 : string)
    (h : findings) :
  let h1 := if b1 then add_error s1 h else add_info s2 h in
  let h2 := if b2 then add_error s3 h1 else add_info s4 h1 in
  let h3 := if b3 then add_error s5 h2 else add_info s6 h2 in
  let r := if b4 then add_error s7 h3 else add_info s8 h3 in
  warnings r = warnings h
  ∧ (length (errors r) + length (info r)
     = length (errors h) + length (info h) + 4)%nat.
Proof.
  intros h1 h2 h3 r.
  destruct (either_step_count b1 s1 s2 h) as [Hw1 Hn1].
  destruct (either_step_count b2 s3 s4 h1) as [Hw2 Hn2].
  destruct (either_step_count b3 s5 s6 h2) as [Hw3 Hn3].
  destruct (either_step_count b4 s7 s8 h3) as [Hw4 Hn4].
  cbv zeta in *. fold h1 in Hw1, Hn1, Hw2, Hn2. fold h2 in Hw2, Hn2, Hw3, Hn3.
  fold h3 in Hw3, Hn3, Hw4, Hn4. fold r in Hw4, Hn4.
  split; [congruence | lia].
Qed.

Lemma either_step_no_error (b : bool) (s1 s2 : string) (h : findings) :
  errors (if b then add_error s1 h else add_info s2 h) = []
  ↔ b = false ∧ errors h = [].
Proof.
  destruct b; cbn [errors add_error add_info].
  - split; [by intros [_ ?]%app_eq_nil | by intros [? _]].
  - tauto.
Qed.

Lemma nonempty_false_iff {A} (l : list A) : negb (nonempty l) = false ↔ l ≠ [].
Proof. destruct l; simpl; split; congruence. Qed.

Lemma seq_truthy_iff {A} (o : option (list A)) :
  negb (seq_truthy o) = false ↔ ∃ x xs, o = Some (x :: xs).
Proof.
  destruct o as [[|x xs]|]; simpl; split; try done.
  - by intros (? & ? & ?).
  - intros _. by exists x, xs.
  - by intros (? & ? & ?).
Qed.

Lemma spatial_no_error m :
  errors (validate_spatial_hierarchy m no_findings) = []
  ↔ ∃ project others,
      by_type m "IfcProject" = project :: others
      ∧ (∃ ctx ctxs, RepresentationContexts project = Some (ctx :: ctxs))
      ∧ by_type m "IfcSite" ≠ []
      ∧ by_type m "IfcBuilding" ≠ []
      ∧ by_type m "IfcBuildingStorey" ≠ [].
Proof.
  unfold validate_spatial_hierarchy.
  destruct (by_type m "IfcProject") as [|project others].
  { split; [done|]. by intros (? & ? & ? & _). }
  cbv zeta. rewrite !either_step_no_error.
  rewrite !nonempty_false_iff, seq_truthy_iff.
  split.
  - intros (Hstorey & Hbuilding & Hsite & Hctx & _).
    by exists project, others.
  - intros (project' & others' & [= <- <-] & Hctx & Hsite & Hbuilding & Hstorey).
    done.
Qed.

Lemma find_length_unit_is_Some units :
  is_Some (find_length_unit units)
  ↔ Exists (λ u, UnitType u = Text "LENGTHUNIT") units.
Proof.
  induction units as [|u units IH]; simpl.
  - split; [by intros [? ?] | by intros ?%Exists_nil].
  - rewrite Exists_cons.
    destruct (hasattr (UnitType u) && attr_eq (UnitType u) "LENGTHUNIT") eqn:Ht.
    + apply length_unit_test in Ht. split; [by left | by eexists].
    + rewrite IH. split; [by right|]. intros [Hu|?]; [|done].
      apply length_unit_test in Hu. congruence.
Qed.

Lemma units_no_error m :
  errors (validate_units m no_findings) = []
  ↔ ∃ project others units,
      by_type m "IfcProject" = project :: others
      ∧ UnitsInContext project = Some units
      ∧ Exists (λ u, UnitType u = Text "LENGTHUNIT") units.
Proof.
  unfold validate_units.
  destruct (by_type m "IfcProject") as [|project others].
  { split; [done|]. by intros (? & ? & ? & ? & _). }
  destruct (UnitsInContext project) as [units|] eqn:Hunits.
  2: { split; [done|]. intros (? & ? & ? & [= <- <-] & ? & _). congruence. }
  pose proof (find_length_unit_is_Some units) as Hfind.
  destruct (find_length_unit units) as [length_unit|].
  - split.
    + intros _. exists project, others, units.
      split; [done|]. split; [done|]. apply Hfind. by eexists.
    + intros _. by case_match.
  - split; [done|].
    intros (? & ? & units' & [= <- <-] & Hunits' & Hex).
    assert (units' = units) as -> by congruence.
    apply Hfind in Hex. by destruct Hex.
Qed.

Lemma by_type_first s before e after t :
  Forall (λ x, is_a x t = false) before →
  is_a e t = true →
  ∃ later, by_type (Model s (before ++ e :: after)) t = e :: later.
Proof.
  intros Hbefore He. unfold by_type. cbn [entities].
  rewrite filter_app, filter_cons.
  destruct (decide (is_a e t)) as [_|Hno]; [|by rewrite He in Hno].
  assert (filter (λ x, is_a x t) before = []) as ->; [|by eexists].
  induction Hbefore as [|x xs Hx _ IH]; [done|].
  rewrite filter_cons.
  destruct (decide (is_a x t)) as [Hyes|_]; [by rewrite Hx in Hyes | exact IH].
Qed.

End HierarchyAccepts.

(** X5.  The spatial check never warns.  Without a Project it appends one
    error and nothing else; with a Project it appends exactly four findings,
    each an error or an Info (representation contexts, Site, Building,
    BuildingStorey).  It appends no error exactly when the first Project has
    a non-empty list of representation contexts and the model holds at
    least one Site, one Building and one BuildingStorey. *)
Theorem spatial_check_findings (m : model) (f : findings) :
  let r := validate_spatial_hierarchy m f in
  warnings r = warnings f
  ∧ (by_type m "IfcProject" = [] →
     length (errors r) = S (length (errors f)) ∧ info r = info f)
  ∧ (by_type m "IfcProject" ≠ [] →
     (length (errors r) + length (info r)
      = length (errors f) + length (info f) + 4)%nat)
  ∧ (errors r = errors f
     ↔ ∃ project others,
         by_type m "IfcProject" = project :: others
         ∧ (∃ ctx ctxs, RepresentationContexts project = Some (ctx :: ctxs))
         ∧ by_type m "IfcSite" ≠ []
         ∧ by_type m "IfcBuilding" ≠ []
         ∧ by_type m "IfcBuildingStorey" ≠ []).
Proof.
  intros r. subst r. split; [|split; [|split]].
  - unfold validate_spatial_hierarchy.
    destruct (by_type m "IfcProject") as [|project others]; [done|].
    cbv zeta. apply four_steps_count.
  - intros Hnone. unfold validate_spatial_hierarchy. rewrite Hnone.
    cbn [errors info add_error]. rewrite length_app. simpl.
    split; [lia | done].
  - intros Hsome. unfold validate_spatial_hierarchy.
    destruct (by_type m "IfcProject") as [|project others]; [done|].
    cbv zeta. apply four_steps_count.
  - rewrite (appender_errors_unchanged _ f
               (validate_spatial_hierarchy_appender m)).
    apply spatial_no_error.
Qed.

Lemma spatial_check_findings_witness :
  by_type Sample.unhoused "IfcProject" ≠ []
  ∧ (length (errors (validate_spatial_hierarchy Sample.unhoused no_findings))
     + length (info (validate_spatial_hierarchy Sample.unhoused no_findings))
     = 4)%nat.
Proof.
  split; [discriminate|].
  destruct (spatial_check_findings Sample.unhoused no_findings)
    as (_ & _ & Hfour & _).
  apply Hfour. discriminate.
Defined.

(** X6.  The units check appends exactly one finding, whatever the model
    holds.  That finding is not an error exactly when the first Project has
    a unit context whose unit list holds a unit of type [LENGTHUNIT]. *)
Theorem units_check_one_finding (m : model) (f : findings) :
  let r := validate_units m f in
  (length (errors r) + length (warnings r) + length (info r)
   = S (length (errors f) + length (warnings f) + length (info f)))%nat
  ∧ (errors r = errors f
     ↔ ∃ project others units,
         by_type m "IfcProject" = project :: others
         ∧ UnitsInContext project = Some units
         ∧ Exists (λ u, UnitType u = Text "LENGTHUNIT") units).
Proof.
  intros r. subst r. split.
  - unfold validate_units.
    repeat case_match;
      cbn [errors warnings info add_error add_warning add_info];
      rewrite length_app; simpl; lia.
  - rewrite (appender_errors_unchanged _ f (validate_units_appender m)).
    apply units_no_error.
Qed.

(** X7.  Only the first Project counts for the units check: what comes
    after it in the model, further Projects included, and what comes before
    it, changes nothing, and neither does the schema. *)
Theorem units_check_reads_first_project
    (s s' : string) (before after : list entity) (project : entity)
    (f : findings) :
  Forall (λ e, is_a e "IfcProject" = false) before →
  is_a project "IfcProject" = true →
  validate_units (Model s (before ++ project :: after)) f
  = validate_units (Model s' [project]) f.
Proof.
  intros Hbefore Hproject.
  destruct (by_type_first s before project after "IfcProject" Hbefore Hproject)
    as [later Hfirst].
  destruct (by_type_first s' [] project [] "IfcProject" (Forall_nil_2 _) Hproject)
    as [later' Hfirst'].
  change ([] ++ [project])%list with [project] in Hfirst'.
  unfold validate_units. by rewrite Hfirst, Hfirst'.
Qed.

Lemma units_check_reads_first_project_witness :
  validate_units
    (Model "IFC4"
       [Sample.cabinet; Sample.project (Some [Sample.millimetre]);
        Sample.project None; Sample.project (Some [Sample.metre])])
    no_findings
  = validate_units (Model "IFC2X3" [Sample.project (Some [Sample.millimetre])])
      no_findings.
Proof.
  apply (units_check_reads_first_project "IFC4" "IFC2X3" [Sample.cabinet]
           [Sample.project None; Sample.project (Some [Sample.metre])]
           (Sample.project (Some [Sample.millimetre])) no_findings).
  - repeat constructor.
  - reflexivity.
Defined.

(** ** When a run passes *)

Section RunPasses.

Lemma schema_no_error m :
  errors (validate_schema m no_findings) = [] ↔ schema m = "IFC4".
Proof.
  unfold validate_schema. case_bool_decide as Hne; cbn [errors add_error add_info].
  - split; [done|]. intros Heq. by destruct Hne.
  - split; [|done]. intros _.
    destruct (decide (schema m = "IFC4")) as [Heq|Hother]; [exact Heq|].
    by destruct Hne.
Qed.

Lemma placements_no_error m :
  errors (validate_no_float_placements m no_findings) = []
  ↔ Forall (λ p, ∃ cls supers attrs,
                   ObjectPlacement p = EntityRef cls supers (S attrs))
           (by_type m "IfcProduct").
Proof.
  unfold validate_no_float_placements. cbv zeta. cbn [errors add_info].
  rewrite (for_each_errors check_placement) by apply check_placement_appender.
  cbn [errors no_findings app]. rewrite concat_map_nil_iff.
  apply Forall_proper; [|done]. intros p. apply check_placement_no_error.
Qed.

Lemma products_no_error m : errors (validate_products m no_findings) = [].
Proof.
  unfold validate_products. cbv zeta. cbn [errors add_info].
  by destruct (for_each_check_product_keeps (by_type m "IfcProduct") no_findings)
    as [-> _].
Qed.

Lemma property_sets_no_error m :
  errors (validate_property_sets m no_findings) = [].
Proof.
  unfold validate_property_sets.
  by destruct (for_each_check_property_set
                 (by_type m "IfcFurnishingElement") no_findings) as [-> _].
Qed.

Lemma relationships_no_error m :
  errors (validate_relationships m no_findings) = []
  ↔ Forall (λ rel, has_is_a (RelatingObject rel) = true
                   ∧ ∃ obj objs,
                       RelatedObjects rel = Some (obj :: objs)
                       ∧ Forall (λ o, has_is_a o = true) (obj :: objs))
           (by_type m "IfcRelAggregates")
    ∧ Forall (λ rel, has_is_a (RelatingStructure rel) = true)
             (by_type m "IfcRelContainedInSpatialStructure").
Proof.
  unfold validate_relationships. cbv zeta. cbn [errors add_info].
  rewrite (for_each_errors check_containment)
    by apply check_containment_appender.
  rewrite (for_each_errors check_aggregate)
    by apply check_aggregate_appender.
  cbn [errors no_findings app]. rewrite app_nil, !concat_map_nil_iff.
  split; intros [Haggregates Hcontainments]; split;
    (eapply Forall_impl; [eassumption|]); intros rel;
    first [apply check_aggregate_no_error | apply check_containment_no_error].
Qed.

(** The errors of a run are those of the seven checks on empty lists, one
    after the other. *)
Lemma run_checks_errors m f :
  errors (run_checks m f)
  = (errors f
     ++ errors (validate_schema m no_findings)
     ++ errors (validate_units m no_findings)
     ++ errors (validate_spatial_hierarchy m no_findings)
     ++ errors (validate_no_float_placements m no_findings)
     ++ errors (validate_relationships m no_findings))%list.
Proof.
  unfold run_checks. cbv zeta.
  rewrite (validate_relationships_appender m _). cbn [errors fapp].
  rewrite (validate_property_sets_appender m _). cbn [errors fapp].
  rewrite (validate_products_appender m _). cbn [errors fapp].
  rewrite (validate_no_float_placements_appender m _). cbn [errors fapp].
  rewrite (validate_spatial_hierarchy_appender m _). cbn [errors fapp].
  rewrite (validate_units_appender m _). cbn [errors fapp].
  rewrite (validate_schema_appender m _). cbn [errors fapp].
  rewrite products_no_error, property_sets_no_error, !app_nil_r.
  by rewrite <- !app_assoc.
Qed.

Lemma main_exit_status io argv :
  (main io argv).2 = 0
  ↔ ∃ prog ifc_file rest m,
      argv = prog :: ifc_file :: rest
      ∧ path_exists io ifc_file = true
      ∧ ifc_open io ifc_file = inr m
      ∧ errors (run_checks m no_findings) = [].
Proof.
  split.
  - destruct argv as [|prog [|ifc_file rest]]; [done..|].
    destruct (path_exists io ifc_file) eqn:Hex.
    2: { unfold main. by rewrite Hex. }
    destruct (ifc_open io ifc_file) as [e|m] eqn:Hopen.
    { unfold main, IFCValidator. by rewrite Hex, Hopen. }
    rewrite (main_runs io prog ifc_file rest m Hex Hopen). cbn [snd].
    destruct ((validate_all (Validator ifc_file no_findings m)).2) eqn:Hv;
      [|done].
    intros _. exists prog, ifc_file, rest, m.
    split; [done|]. split; [done|]. split; [done|].
    by apply (validate_all_true_iff (Validator ifc_file no_findings m)).
  - intros (prog & ifc_file & rest & m & -> & Hex & Hopen & Hnil).
    rewrite (main_runs io prog ifc_file rest m Hex Hopen). cbn [snd].
    by rewrite (proj2 (validate_all_true_iff (Validator ifc_file no_findings m))
                  Hnil).
Qed.

End RunPasses.

(** X8.  A run ends without errors exactly when: the schema is [IFC4]; the
    first Project has a unit context with a [LENGTHUNIT] unit and a
    non-empty list of representation contexts; the model holds a Site, a
    Building and a BuildingStorey; the placement of every product is an
    entity with at least one attribute; every IfcRelAggregates relates an
    entity to a non-empty list of entities; and every
    IfcRelContainedInSpatialStructure has an entity as relating structure.  Units other than millimetres, placements of
    another class, missing geometry, object types and property sets never
    make a run fail. *)
Theorem run_passes_iff (m : model) :
  errors (run_checks m no_findings) = []
  ↔ schema m = "IFC4"
    ∧ (∃ project others,
         by_type m "IfcProject" = project :: others
         ∧ (∃ units, UnitsInContext project = Some units
                     ∧ Exists (λ u, UnitType u = Text "LENGTHUNIT") units)
         ∧ (∃ ctx ctxs, RepresentationContexts project = Some (ctx :: ctxs)))
    ∧ by_type m "IfcSite" ≠ []
    ∧ by_type m "IfcBuilding" ≠ []
    ∧ by_type m "IfcBuildingStorey" ≠ []
    ∧ Forall (λ p, ∃ cls supers attrs,
                     ObjectPlacement p = EntityRef cls supers (S attrs))
             (by_type m "IfcProduct")
    ∧ Forall (λ rel, has_is_a (RelatingObject rel) = true
                     ∧ ∃ obj objs,
                         RelatedObjects rel = Some (obj :: objs)
                         ∧ Forall (λ o, has_is_a o = true) (obj :: objs))
             (by_type m "IfcRelAggregates")
    ∧ Forall (λ rel, has_is_a (RelatingStructure rel) = true)
             (by_type m "IfcRelContainedInSpatialStructure").
Proof.
  rewrite run_checks_errors. cbn [errors no_findings app].
  rewrite !app_nil, schema_no_error, units_no_error, spatial_no_error,
    placements_no_error, relationships_no_error.
  split.
  - intros (Hschema & (project & others & units & Hproject & Hunits & Hlen)
            & (project' & others' & Hproject' & Hctx & Hsite & Hbuilding & Hstorey)
            & Hplacements & Haggregates & Hcontainments).
    assert (project' = project) as -> by congruence.
    split; [done|]. split; [|done].
    exists project, others. split; [done|]. split; [|done]. by exists units.
  - intros (Hschema & (project & others & Hproject & (units & Hunits & Hlen) & Hctx)
            & Hsite & Hbuilding & Hstorey & Hplacements & Haggregates
            & Hcontainments).
    split; [done|]. split; [by exists project, others, units|].
    split; [by exists project, others|]. done.
Qed.


(** X9.  [main] exits with status 0 or 1, and with 0 exactly when it is
    given a path as first argument, the path exists, the file opens, and
    the run on the opened model ends without errors.  The program name and
    the arguments after the path play no part. *)
Theorem main_exits_zero_iff (io : provider) (argv : list string) :
  ((main io argv).2 = 0 ∨ (main io argv).2 = 1)
  ∧ ((main io argv).2 = 0
     ↔ ∃ prog ifc_file rest m,
         argv = prog :: ifc_file :: rest
         ∧ path_exists io ifc_file = true
         ∧ ifc_open io ifc_file = inr m
         ∧ errors (run_checks m no_findings) = []).
Proof.
  split; [|apply main_exit_status].
  unfold main. repeat case_match; cbn [snd]; tauto.
Qed.

(** ** The verdict line of the report *)

Section Banner.

Lemma elem_of_print_block x title bullet items :
  x ∈ print_block title bullet items →
  (∃ rest, x = title +:+ rest) ∨ (∃ item, x = bullet +:+ item) ∨ x = "".
Proof.
  unfold print_block. destruct (nonempty items); [|by intros ?%elem_of_nil].
  rewrite !elem_of_app, elem_of_cons, !elem_of_nil.
  intros [[->|[]]|[Hitem|Hblank]].
  - left. by eexists.
  - right. left. apply list_elem_of_In, in_map_iff in Hitem as (item & <- & _).
    by eexists.
  - right. right. apply elem_of_cons in Hblank as [->|[]%elem_of_nil]. done.
Qed.

(** None of the three verdict lines is a title, an item or a ruler of the
    report. *)
Lemma verdict_not_in_block x title bullet items :
  x ∈ ["❌ VALIDATION FAILED"; "⚠️  VALIDATION PASSED WITH WARNINGS";
       "✅ VALIDATION PASSED"] →
  (title, bullet) ∈ [("❌ ERRORS", "   • "); ("⚠️  WARNINGS", "   • ");
                     ("✓ PASSED CHECKS", "   ")] →
  x ∉ print_block title bullet items.
Proof.
  intros Hx Hblock Hin.
  apply elem_of_print_block in Hin.
  rewrite !elem_of_cons, elem_of_nil in Hx.
  rewrite !elem_of_cons, elem_of_nil in Hblock.
  destruct Hx as [->|[->|[->|[]]]];
    destruct Hblock as [[= -> ->]|[[= -> ->]|[[= -> ->]|[]]]];
    destruct Hin as [[rest Heq]|[[item Heq]|Heq]];
    cbn in Heq; discriminate.
Qed.

Lemma elem_of_print_results x f :
  x ∈ ["❌ VALIDATION FAILED"; "⚠️  VALIDATION PASSED WITH WARNINGS";
       "✅ VALIDATION PASSED"] →
  x ∈ print_results f
  ↔ x ∈ (if nonempty (errors f)
         then ["❌ VALIDATION FAILED";
               "   " +:+ len_str (errors f) +:+ " error(s), "
               +:+ len_str (warnings f) +:+ " warning(s)"]
         else if nonempty (warnings f)
         then ["⚠️  VALIDATION PASSED WITH WARNINGS";
               "   " +:+ len_str (warnings f) +:+ " warning(s)"]
         else ["✅ VALIDATION PASSED"; "   All checks successful!"]).
Proof.
  intros Hx. unfold print_results. rewrite !elem_of_app.
  assert (x ∉ print_block "❌ ERRORS" "   • " (errors f)) as He
    by (apply verdict_not_in_block; [done | rewrite !elem_of_cons; tauto]).
  assert (x ∉ print_block "⚠️  WARNINGS" "   • " (warnings f)) as Hw
    by (apply verdict_not_in_block; [done | rewrite !elem_of_cons; tauto]).
  assert (x ∉ print_block "✓ PASSED CHECKS" "   " (info f)) as Hi
    by (apply verdict_not_in_block; [done | rewrite !elem_of_cons; tauto]).
  assert (x ∉ [nl +:+ rule; "VALIDATION RESULTS"; rule +:+ nl]) as Hhead.
  { rewrite !elem_of_cons, elem_of_nil in Hx.
    rewrite !elem_of_cons, elem_of_nil.
    intros [Heq|[Heq|[Heq|[]]]]; destruct Hx as [->|[->|[->|[]]]];
      vm_compute in Heq; discriminate. }
  assert (x ∉ [rule]) as Hrule.
  { rewrite !elem_of_cons, elem_of_nil in Hx.
    rewrite !elem_of_cons, elem_of_nil.
    intros [Heq|[]]; destruct Hx as [->|[->|[->|[]]]];
      vm_compute in Heq; discriminate. }
  assert (x ∉ [rule +:+ nl]) as Htail.
  { rewrite !elem_of_cons, elem_of_nil in Hx.
    rewrite !elem_of_cons, elem_of_nil.
    intros [Heq|[]]; destruct Hx as [->|[->|[->|[]]]];
      vm_compute in Heq; discriminate. }
  split; [|tauto].
  intros [?|[?|[?|[?|[?|[?|?]]]]]]; try done; tauto.
Qed.

Lemma failed_banner_iff f :
  "❌ VALIDATION FAILED" ∈ print_results f ↔ errors f ≠ [].
Proof.
  rewrite elem_of_print_results by (rewrite !elem_of_cons; tauto).
  destruct (errors f) as [|e es]; cbn [nonempty].
  - split; [|done]. destruct (nonempty (warnings f));
      rewrite !elem_of_cons, elem_of_nil; intros [Heq|[Heq|[]]]; discriminate.
  - split; [done|]. intros _. apply elem_of_cons. by left.
Qed.

Lemma warned_banner_iff f :
  "⚠️  VALIDATION PASSED WITH WARNINGS" ∈ print_results f
  ↔ errors f = [] ∧ warnings f ≠ [].
Proof.
  rewrite elem_of_print_results by (rewrite !elem_of_cons; tauto).
  destruct (errors f) as [|e es]; cbn [nonempty].
  - destruct (warnings f) as [|w ws]; cbn [nonempty].
    + split; [|by intros [_ ?]].
      rewrite !elem_of_cons, elem_of_nil. intros [Heq|[Heq|[]]]; discriminate.
    + split; [done|]. intros _. apply elem_of_cons. by left.
  - split; [|by intros [? _]].
    rewrite !elem_of_cons, elem_of_nil. intros [Heq|[Heq|[]]].
    + discriminate.
    + cbn in Heq. discriminate.
Qed.

Lemma passed_banner_iff f :
  "✅ VALIDATION PASSED" ∈ print_results f ↔ errors f = [] ∧ warnings f = [].
Proof.
  rewrite elem_of_print_results by (rewrite !elem_of_cons; tauto).
  destruct (errors f) as [|e es]; cbn [nonempty].
  - destruct (warnings f) as [|w ws]; cbn [nonempty].
    + split; [done|]. intros _. apply elem_of_cons. by left.
    + split; [|by intros [_ ?]].
      rewrite !elem_of_cons, elem_of_nil. intros [Heq|[Heq|[]]].
      * discriminate.
      * cbn in Heq. discriminate.
  - split; [|by intros [? _]].
    rewrite !elem_of_cons, elem_of_nil. intros [Heq|[Heq|[]]].
    + discriminate.
    + cbn in Heq. discriminate.
Qed.

End Banner.

(** X10.  The report ends with exactly one of three verdict lines, chosen
    by the lists alone: FAILED exactly when there is an error, PASSED WITH
    WARNINGS exactly when there is no error but a warning, PASSED exactly
    when both lists are empty.  No finding, whatever its text, can make
    another verdict line appear. *)
Theorem report_verdict_line (f : findings) :
  ("❌ VALIDATION FAILED" ∈ print_results f ↔ errors f ≠ [])
  ∧ ("⚠️  VALIDATION PASSED WITH WARNINGS" ∈ print_results f
     ↔ errors f = [] ∧ warnings f ≠ [])
  ∧ ("✅ VALIDATION PASSED" ∈ print_results f
     ↔ errors f = [] ∧ warnings f = []).
Proof.
  split; [apply failed_banner_iff|].
  split; [apply warned_banner_iff | apply passed_banner_iff].
Qed.

(** ** The exit status and the printed verdict *)

Section ExitAndVerdict.

Lemma verdict_not_in_header x ifc_file :
  x ∈ ["❌ VALIDATION FAILED"; "⚠️  VALIDATION PASSED WITH WARNINGS";
       "✅ VALIDATION PASSED"] →
  x ∉ [nl +:+ rule; "IFC VALIDATION: " +:+ basename ifc_file; rule +:+ nl].
Proof.
  intros Hx. rewrite !elem_of_cons, elem_of_nil in Hx.
  rewrite !elem_of_cons, elem_of_nil.
  generalize (basename ifc_file). intros b.
  intros [Heq|[Heq|[Heq|[]]]]; destruct Hx as [->|[->|[->|[]]]];
    first [ cbn in Heq; discriminate | vm_compute in Heq; discriminate ].
Qed.

Lemma verdict_not_in_usage x :
  x ∈ ["❌ VALIDATION FAILED"; "⚠️  VALIDATION PASSED WITH WARNINGS";
       "✅ VALIDATION PASSED"] →
  x ∉ usage.
Proof.
  intros Hx. rewrite !elem_of_cons, elem_of_nil in Hx.
  unfold usage. rewrite !elem_of_cons, elem_of_nil.
  intros [Heq|[Heq|[Heq|[]]]]; destruct Hx as [->|[->|[->|[]]]];
    vm_compute in Heq; discriminate.
Qed.

Lemma verdict_not_error_line x (line : string) :
  x ∈ ["❌ VALIDATION FAILED"; "⚠️  VALIDATION PASSED WITH WARNINGS";
       "✅ VALIDATION PASSED"] →
  (x ∉ ["ERROR: File not found: " +:+ line])
  ∧ (x ∉ [nl +:+ "ERROR: " +:+ line]).
Proof.
  intros Hx. rewrite !elem_of_cons, elem_of_nil in Hx.
  rewrite !elem_of_cons, !elem_of_nil.
  split; intros [Heq|[]]; destruct Hx as [->|[->|[->|[]]]];
    cbn in Heq; discriminate.
Qed.

(** What [main] prints for a verdict line [x]: nothing unless the run
    completes, and then what the report holds. *)
Lemma verdict_in_main x io argv :
  x ∈ ["❌ VALIDATION FAILED"; "⚠️  VALIDATION PASSED WITH WARNINGS";
       "✅ VALIDATION PASSED"] →
  x ∈ (main io argv).1
  ↔ ∃ prog ifc_file rest m,
      argv = prog :: ifc_file :: rest
      ∧ path_exists io ifc_file = true
      ∧ ifc_open io ifc_file = inr m
      ∧ x ∈ print_results (run_checks m no_findings).
Proof.
  intros Hx. split.
  - destruct argv as [|prog [|ifc_file rest]];
      [by intros ?%(verdict_not_in_usage x Hx)..|].
    destruct (path_exists io ifc_file) eqn:Hex.
    2: { unfold main. rewrite Hex. cbn [negb fst]. intros Hin.
         by apply (verdict_not_error_line x ifc_file Hx) in Hin. }
    destruct (ifc_open io ifc_file) as [e|m] eqn:Hopen.
    { unfold main, IFCValidator. rewrite Hex, Hopen. cbn [negb fst]. intros Hin.
      by apply (verdict_not_error_line x ("Failed to open IFC file: " +:+ e) Hx)
        in Hin. }
    rewrite (main_runs io prog ifc_file rest m Hex Hopen).
    unfold validate_all. cbn [fst snd file_path opened found].
    rewrite elem_of_app. intros [Hhead|Hreport].
    + by apply (verdict_not_in_header x ifc_file Hx) in Hhead.
    + by exists prog, ifc_file, rest, m.
  - intros (prog & ifc_file & rest & m & -> & Hex & Hopen & Hin).
    rewrite (main_runs io prog ifc_file rest m Hex Hopen).
    unfold validate_all. cbn [fst snd file_path opened found].
    rewrite elem_of_app. by right.
Qed.

End ExitAndVerdict.

(** X11.  The exit status agrees with the verdict that is printed: [main]
    exits with 0 exactly when its output holds the PASSED line or the
    PASSED WITH WARNINGS line, and whenever it prints the FAILED line it
    exits with 1.  Usage and ERROR outputs hold none of the three lines. *)
Theorem exit_status_matches_verdict (io : provider) (argv : list string) :
  ((main io argv).2 = 0
   ↔ "✅ VALIDATION PASSED" ∈ (main io argv).1
     ∨ "⚠️  VALIDATION PASSED WITH WARNINGS" ∈ (main io argv).1)
  ∧ ("❌ VALIDATION FAILED" ∈ (main io argv).1 → (main io argv).2 = 1).
Proof.
  rewrite !verdict_in_main by (rewrite !elem_of_cons; tauto).
  rewrite main_exit_status. split.
  - split.
    + intros (prog & ifc_file & rest & m & Hargv & Hex & Hopen & Hnil).
      destruct (warnings (run_checks m no_findings)) as [|w ws] eqn:Hw.
      * left. exists prog, ifc_file, rest, m. repeat split; try done.
        by apply passed_banner_iff.
      * right. exists prog, ifc_file, rest, m. repeat split; try done.
        apply warned_banner_iff. by rewrite Hw.
    + intros [(prog & ifc_file & rest & m & Hargv & Hex & Hopen & Hin)
             |(prog & ifc_file & rest & m & Hargv & Hex & Hopen & Hin)];
        exists prog, ifc_file, rest, m; repeat split; try done.
      * by apply passed_banner_iff in Hin as [? _].
      * by apply warned_banner_iff in Hin as [? _].
  - intros (prog & ifc_file & rest & m & -> & Hex & Hopen & Hin).
    apply failed_banner_iff in Hin.
    by apply (exit_status_of_errors io prog ifc_file rest m).
Qed.

Lemma exit_status_matches_verdict_witness :
  "❌ VALIDATION FAILED"
  ∈ (main (Sample.serving Sample.unhoused) ["validate_ifc.py"; "u.ifc"]).1
  ∧ (main (Sample.serving Sample.unhoused) ["validate_ifc.py"; "u.ifc"]).2 = 1.
Proof.
  assert ("❌ VALIDATION FAILED"
          ∈ (main (Sample.serving Sample.unhoused) ["validate_ifc.py"; "u.ifc"]).1)
    as Hin by (refine (bool_decide_unpack _ _); by vm_compute).
  split; [exact Hin|].
  destruct (exit_status_matches_verdict (Sample.serving Sample.unhoused)
              ["validate_ifc.py"; "u.ifc"]) as [_ Hfailed].
  by apply Hfailed.
Defined.

(** ** A validator used twice *)

(** X12.  [validate_all] does not reset the three lists and does not touch
    the path or the model.  Called a second time on the same validator it
    appends the findings of the run once more: started on empty lists, the
    second call leaves every error, warning and Info twice, and returns the
    same boolean as the first. *)
Theorem validate_all_twice_accumulates (v : validator) :
  let v1 := (validate_all v).1.2 in
  let v2 := (validate_all v1).1.2 in
  let d := run_checks (opened v) no_findings in
  opened v2 = opened v
  ∧ file_path v2 = file_path v
  ∧ found v1 = fapp (found v) d
  ∧ found v2 = fapp (fapp (found v) d) d
  ∧ (found v = no_findings →
     found v2 = fapp d d ∧ (validate_all v1).2 = (validate_all v).2).
Proof.
  intros v1 v2 d. subst v1 v2 d. unfold validate_all.
  cbn [fst snd file_path opened found].
  split; [done|]. split; [done|].
  split; [apply run_checks_appender|].
  split.
  - rewrite (run_checks_appender (opened v) (run_checks _ _)).
    by rewrite (run_checks_appender (opened v) (found v)).
  - intros Hfresh. rewrite Hfresh.
    rewrite (run_checks_appender (opened v) (run_checks _ _)).
    split; [done|]. cbn [errors fapp]. rewrite length_app.
    destruct (errors (run_checks (opened v) no_findings)); [done|].
    cbn [length]. by rewrite !bool_decide_eq_false_2 by lia.
Qed.

Lemma validate_all_twice_accumulates_witness :
  let v := Validator "u.ifc" no_findings Sample.unhoused in
  errors (found (validate_all (validate_all v).1.2).1.2)
  = ["Schema must be IFC4, found: IFC2X3";
     "No IfcSite found (required)"; "No IfcBuilding found (required)";
     "No IfcBuildingStorey found (CRITICAL - required for valid hierarchy)";
     "Schema must be IFC4, found: IFC2X3";
     "No IfcSite found (required)"; "No IfcBuilding found (required)";
     "No IfcBuildingStorey found (CRITICAL - required for valid hierarchy)"].
Proof.
  intros v.
  destruct (validate_all_twice_accumulates v) as (_ & _ & _ & _ & Hfresh).
  destruct (Hfresh eq_refl) as [-> _]. by vm_compute.
Defined.

(** ** What every report holds *)

Section ReportContent.

Lemma info_grows c g : appender c → (length (info g) ≤ length (info (c g)))%nat.
Proof.
  intros Hc. rewrite (Hc g). cbn [info fapp]. rewrite length_app. lia.
Qed.

Lemma placements_info m g :
  length (info (validate_no_float_placements m g)) = S (length (info g)).
Proof.
  unfold validate_no_float_placements. cbv zeta. cbn [info add_info].
  rewrite length_app, for_each_check_placement_info. simpl. lia.
Qed.

Lemma products_info m g :
  length (info (validate_products m g)) = S (length (info g)).
Proof.
  unfold validate_products. cbv zeta. cbn [info add_info].
  destruct (for_each_check_product_keeps (by_type m "IfcProduct") g) as [_ ->].
  rewrite length_app. simpl. lia.
Qed.

Lemma relationships_info m g :
  (S (length (info g)) ≤ length (info (validate_relationships m g)))%nat.
Proof.
  unfold validate_relationships. cbv zeta. cbn [info add_info].
  rewrite length_app. simpl.
  pose proof (info_grows (for_each check_aggregate (by_type m "IfcRelAggregates"))
                g (appender_for_each _ _ check_aggregate_appender)).
  pose proof (info_grows
                (for_each check_containment
                   (by_type m "IfcRelContainedInSpatialStructure"))
                (for_each check_aggregate (by_type m "IfcRelAggregates") g)
                (appender_for_each _ _ check_containment_appender)).
  lia.
Qed.

Lemma print_block_sublist title bullet items :
  map (λ item, bullet +:+ item) items
  `sublist_of` print_block title bullet items.
Proof.
  unfold print_block. destruct items as [|item items]; [done|].
  cbn [nonempty]. apply sublist_inserts_l, sublist_inserts_r. done.
Qed.

Lemma print_block_length title bullet items :
  length (print_block title bullet items)
  = (if nonempty items then length items + 2 else 0)%nat.
Proof.
  unfold print_block. destruct (nonempty items); [|done].
  rewrite !length_app, length_map. simpl. lia.
Qed.

End ReportContent.

(** X13.  Every run confirms something: the placement, product and
    relationship checks each append a summary Info whatever the model
    holds, so a run adds at least three Info lines, its last Info is the
    line with the relationship counts, and the report always has its
    PASSED CHECKS block. *)
Theorem run_always_confirms (m : model) (f : findings) :
  let r := run_checks m f in
  (length (info f) + 3 ≤ length (info r))%nat
  ∧ last (info r)
    = Some ("✓ Validated " +:+ len_str (by_type m "IfcRelAggregates")
            +:+ " aggregation and "
            +:+ len_str (by_type m "IfcRelContainedInSpatialStructure")
            +:+ " containment relationships")
  ∧ ("✓ PASSED CHECKS (" +:+ len_str (info r) +:+ "):") ∈ print_results r.
Proof.
  intros r.
  assert (length (info f) + 3 ≤ length (info r))%nat as Hthree.
  { subst r. unfold run_checks. cbv zeta.
    pose proof (info_grows _ f (validate_schema_appender m)) as H1.
    pose proof (info_grows _ (validate_schema m f) (validate_units_appender m))
      as H2.
    pose proof (info_grows _ (validate_units m (validate_schema m f))
                  (validate_spatial_hierarchy_appender m)) as H3.
    set (g3 := validate_spatial_hierarchy m _) in *.
    pose proof (placements_info m g3) as H4.
    set (g4 := validate_no_float_placements m g3) in *.
    pose proof (products_info m g4) as H5.
    set (g5 := validate_products m g4) in *.
    pose proof (info_grows _ g5 (validate_property_sets_appender m)) as H6.
    set (g6 := validate_property_sets m g5) in *.
    pose proof (relationships_info m g6) as H7.
    lia. }
  split; [exact Hthree|]. split.
  - subst r. unfold run_checks, validate_relationships. cbv zeta.
    cbn [info add_info]. apply last_snoc.
  - unfold print_results, print_block.
    destruct (info r) as [|line lines] eqn:Hinfo; [simpl in Hthree; lia|].
    cbn [nonempty]. rewrite !elem_of_app, !elem_of_cons. tauto.
Qed.

(** X14.  The report prints every finding once, behind its bullet, in the
    order errors, warnings, Info and within each list in the order of
    appending.  Besides the seven lines of frame and verdict, an empty list
    prints nothing, and a list that is not empty adds a title and a blank
    line to its items. *)
Theorem report_prints_every_finding (f : findings) :
  (map (λ e, "   • " +:+ e) (errors f)
   ++ map (λ w, "   • " +:+ w) (warnings f)
   ++ map (λ i, "   " +:+ i) (info f))%list
  `sublist_of` print_results f
  ∧ length (print_results f)
    = (7
       + (if nonempty (errors f) then length (errors f) + 2 else 0)
       + (if nonempty (warnings f) then length (warnings f) + 2 else 0)
       + (if nonempty (info f) then length (info f) + 2 else 0))%nat.
Proof.
  split.
  - unfold print_results.
    apply sublist_inserts_l.
    apply sublist_app; [apply print_block_sublist|].
    apply sublist_app; [apply print_block_sublist|].
    rewrite <- (app_nil_r (map _ (info f))).
    apply sublist_app; [apply print_block_sublist|]. apply sublist_nil_l.
  - unfold print_results. rewrite !length_app, !print_block_length.
    destruct (nonempty (errors f)), (nonempty (warnings f)); simpl; lia.
Qed.

(** ** When a run has no warning *)

Section RunWarnings.

Lemma find_length_unit_Some_split units u :
  find_length_unit units = Some u →
  ∃ before after,
    units = (before ++ u :: after)%list
    ∧ Forall (λ u', UnitType u' ≠ Text "LENGTHUNIT") before
    ∧ UnitType u = Text "LENGTHUNIT".
Proof.
  induction units as [|x units IH]; [done|]. simpl.
  destruct (hasattr (UnitType x) && attr_eq (UnitType x) "LENGTHUNIT") eqn:Ht.
  - intros [= ->]. exists [], units. split; [done|]. split; [done|].
    by apply length_unit_test.
  - intros Hfind. destruct (IH Hfind) as (before & after & -> & Hbefore & Hu).
    exists (x :: before), after. split; [done|]. split; [|done].
    apply Forall_cons. split; [|done].
    intros Hx. apply length_unit_test in Hx. congruence.
Qed.

Lemma units_no_warning m :
  warnings (validate_units m no_findings) = []
  ↔ ∀ project others units before u after,
      by_type m "IfcProject" = project :: others →
      UnitsInContext project = Some units →
      units = (before ++ u :: after)%list →
      Forall (λ u', UnitType u' ≠ Text "LENGTHUNIT") before →
      UnitType u = Text "LENGTHUNIT" →
      Prefix u = Text "MILLI".
Proof.
  unfold validate_units.
  destruct (by_type m "IfcProject") as [|project others]; [done|].
  destruct (UnitsInContext project) as [units|] eqn:Hunits.
  2: { split; [|done]. intros _ ? ? ? ? ? ? [= <- <-]. congruence. }
  destruct (find_length_unit units) as [length_unit|] eqn:Hfind.
  - destruct (hasattr (Prefix length_unit) && attr_eq (Prefix length_unit) "MILLI")
      eqn:Hmilli.
    + split; [|done]. intros _ ? ? units' before u after [= <- <-] Hunits' ->.
      intros Hbefore Hu.
      assert (units = (before ++ u :: after)%list) as -> by congruence.
      rewrite (find_length_unit_first before u after Hbefore Hu) in Hfind.
      injection Hfind as ->. by apply milli_test.
    + split; [done|]. intros Hall. exfalso.
      destruct (find_length_unit_Some_split units length_unit Hfind)
        as (before & after & Hsplit & Hbefore & Hu).
      pose proof (Hall project others units before length_unit after eq_refl
                    Hunits Hsplit Hbefore Hu) as Hprefix.
      apply milli_test in Hprefix. congruence.
  - split; [|done]. intros _ ? ? units' before u after [= <- <-] Hunits' ->.
    intros Hbefore Hu.
    assert (units = (before ++ u :: after)%list) as -> by congruence.
    rewrite (find_length_unit_first before u after Hbefore Hu) in Hfind.
    discriminate.
Qed.

Lemma missing_props_nil pset :
  missing_props pset = []
  ↔ is_Some (pset !! "BoscotekCode")
    ∧ is_Some (pset !! "Family")
    ∧ is_Some (pset !! "Manufacturer").
Proof.
  unfold missing_props, required_props.
  rewrite !filter_cons, filter_nil.
  rewrite <- !not_eq_None_Some.
  repeat (match goal with
          | |- context [decide (?P)] => destruct (decide P)
          end); split; try done; try tauto.
Qed.

Lemma check_property_set_no_warning p :
  warnings (check_property_set p no_findings) = []
  ↔ ∃ pset,
      psets p !! "Pset_BoscotekCabinet" = Some pset
      ∧ is_Some (pset !! "BoscotekCode")
      ∧ is_Some (pset !! "Family")
      ∧ is_Some (pset !! "Manufacturer").
Proof.
  unfold check_property_set.
  destruct (psets p !! "Pset_BoscotekCabinet") as [pset|].
  2: { split; [done|]. by intros (? & ? & _). }
  destruct (missing_props pset) as [|name names] eqn:Hmissing; cbn [nonempty].
  - split; [|done]. intros _. exists pset. split; [done|].
    by apply missing_props_nil.
  - split; [done|]. intros (pset' & [= <-] & Hall).
    apply missing_props_nil in Hall. congruence.
Qed.

Lemma run_checks_warnings m f :
  warnings (run_checks m f)
  = (warnings f
     ++ warnings (validate_units m no_findings)
     ++ warnings (validate_no_float_placements m no_findings)
     ++ warnings (validate_products m no_findings)
     ++ warnings (validate_property_sets m no_findings)
     ++ warnings (validate_relationships m no_findings))%list.
Proof.
  unfold run_checks. cbv zeta.
  rewrite (validate_relationships_appender m _). cbn [warnings fapp].
  rewrite (validate_property_sets_appender m _). cbn [warnings fapp].
  rewrite (validate_products_appender m _). cbn [warnings fapp].
  rewrite (validate_no_float_placements_appender m _). cbn [warnings fapp].
  rewrite (validate_spatial_hierarchy_appender m _). cbn [warnings fapp].
  rewrite (validate_units_appender m _). cbn [warnings fapp].
  rewrite (validate_schema_appender m _). cbn [warnings fapp].
  assert (warnings (validate_schema m no_findings) = []) as ->
    by (unfold validate_schema; by case_bool_decide).
  assert (warnings (validate_spatial_hierarchy m no_findings) = []) as ->.
  { unfold validate_spatial_hierarchy.
    destruct (by_type m "IfcProject") as [|project others]; [done|].
    cbv zeta. by rewrite (proj1 (four_steps_count _ _ _ _ _ _ _ _ _ _ _ _ _)). }
  rewrite !app_nil_r. by rewrite <- !app_assoc.
Qed.

End RunWarnings.

(** X15.  A run ends without warnings exactly when: the first length unit
    of the first Project, if the scan reaches one, has prefix [MILLI]; every
    placement that is an entity with at least one attribute is an
    IfcLocalPlacement; every product
    outside the four spatial classes has a Representation and a non-empty
    ObjectType; every IfcFurnishingElement has the set
    [Pset_BoscotekCabinet] with the keys BoscotekCode, Family and
    Manufacturer; and no containment has an IfcBuilding as relating
    structure. *)
Theorem run_without_warnings_iff (m : model) :
  warnings (run_checks m no_findings) = []
  ↔ (∀ project others units before u after,
       by_type m "IfcProject" = project :: others →
       UnitsInContext project = Some units →
       units = (before ++ u :: after)%list →
       Forall (λ u', UnitType u' ≠ Text "LENGTHUNIT") before →
       UnitType u = Text "LENGTHUNIT" →
       Prefix u = Text "MILLI")
    ∧ Forall (λ p, ∀ cls supers attrs,
                     ObjectPlacement p = EntityRef cls supers (S attrs) →
                     "IfcLocalPlacement" ∈ cls :: supers)
             (by_type m "IfcProduct")
    ∧ Forall (λ p, ifc_class p ∈ ["IfcProject"; "IfcSite"; "IfcBuilding";
                                  "IfcBuildingStorey"]
                   ∨ (truthy (Representation p) = true
                      ∧ text_truthy (ObjectType p) = true))
             (by_type m "IfcProduct")
    ∧ Forall (λ p, ∃ pset,
                psets p !! "Pset_BoscotekCabinet" = Some pset
                ∧ is_Some (pset !! "BoscotekCode")
                ∧ is_Some (pset !! "Family")
                ∧ is_Some (pset !! "Manufacturer"))
             (by_type m "IfcFurnishingElement")
    ∧ Forall (λ rel, ∀ cls supers attrs,
                RelatingStructure rel = EntityRef cls supers attrs →
                "IfcBuilding" ∉ cls :: supers)
             (by_type m "IfcRelContainedInSpatialStructure").
Proof.
  rewrite run_checks_warnings. cbn [warnings no_findings app].
  rewrite !app_nil, units_no_warning.
  unfold validate_no_float_placements, validate_products,
    validate_property_sets, validate_relationships.
  cbv zeta. cbn [warnings add_info].
  rewrite (for_each_warnings check_placement) by apply check_placement_appender.
  rewrite (for_each_warnings check_product) by apply check_product_appender.
  rewrite (for_each_warnings check_property_set)
    by apply check_property_set_appender.
  rewrite (for_each_warnings check_containment)
    by apply check_containment_appender.
  rewrite for_each_check_aggregate_warnings.
  cbn [warnings no_findings app]. rewrite !concat_map_nil_iff.
  assert (∀ {A} (P Q : A → Prop) l, (∀ x, P x ↔ Q x) → Forall P l ↔ Forall Q l)
    as Hiff by (intros A P Q l HPQ; apply Forall_proper; [exact HPQ | done]).
  rewrite (Hiff _ _ _ _ check_placement_no_warning).
  rewrite (Hiff _ _ _ _ check_product_no_warning).
  rewrite (Hiff _ _ _ _ check_property_set_no_warning).
  rewrite (Hiff _ _ _ _ check_containment_no_warning).
  done.
Qed.
